(** * shared/gpu.py: the ROM bootloader protocol driver of the GPU co-processor

    A shallow embedding of [add_xor_check] and of the methods of [GPUAccess]
    that talk to the bootloader over I2C, together with the properties of the
    framing, of the acknowledgement checks and of the busy-polling loop.

    Python integers are [Z], [bytes] objects are lists of [Byte.byte], and
    the I2C bus is an explicit collaborator: every bus call and every sleep
    is appended to a trace, and the device answers as a function of the
    trace so far.  Exceptions are carried by a small state-and-error monad. *)

From Stdlib Require Import ZArith List Bool String Lia Permutation.
From Stdlib.Strings Require Byte.
Import ListNotations.

Local Open Scope Z_scope.

(** ** Bytes and integers *)

(** A Python [bytes] object. *)
Definition bytes := list Byte.byte.

(** Iterating over a [bytes] object yields integers in [range(256)]. *)
Definition int_of_byte (b : Byte.byte) : Z := Z.of_N (Byte.to_N b).

(** One element of the argument of [bytes([...])]: an integer outside
    [range(256)] is refused. *)
Definition byte_of_int (z : Z) : option Byte.byte :=
  if z <? 0 then None else Byte.of_N (Z.to_N z).

Fixpoint bytes_eqb (a b : bytes) : bool :=
  match a, b with
  | [], [] => true
  | x :: a', y :: b' => Byte.eqb x y && bytes_eqb a' b'
  | _, _ => false
  end.

(** ** Exceptions *)

Inductive exn : Type :=
| ValueError (msg : string)      (* raise ValueError('...') *)
| ValueErrorResp (resp : bytes)  (* raise ValueError(resp) *)
| AssertionError                 (* a failed assert *)
| OSError                        (* ENODEV from the I2C peripheral *)
| NameError                      (* a local read before it was assigned *)
| StructError.                   (* struct.pack argument out of range *)

Inductive result (A : Type) : Type :=
| Ok (a : A)
| Raise (e : exn).
Arguments Ok {A} a.
Arguments Raise {A} e.

Definition result_map {A B : Type} (f : A -> B) (r : result A) : result B :=
  match r with
  | Ok a => Ok (f a)
  | Raise e => Raise e
  end.

Definition result_bind {A B : Type} (r : result A) (f : A -> result B) : result B :=
  match r with
  | Ok a => f a
  | Raise e => Raise e
  end.

(** [bytes(l)] for a list of integers [l]. *)
Fixpoint bytes_of_ints (l : list Z) : result bytes :=
  match l with
  | [] => Ok []
  | z :: l' =>
      match byte_of_int z with
      | None => Raise (ValueError "bytes value out of range")
      | Some b => result_map (cons b) (bytes_of_ints l')
      end
  end.

(** [struct.pack('>I', n)]: the four bytes of [n], most significant first.
    An [n] outside [0, 2^32) is not a 32-bit address; the call is refused
    there, and every property below that packs an address assumes the
    range. *)
Definition struct_pack_I (n : Z) : result bytes :=
  if (0 <=? n) && (n <? 2 ^ 32) then
    bytes_of_ints [Z.shiftr n 24;
                   Z.land (Z.shiftr n 16) 255;
                   Z.land (Z.shiftr n 8) 255;
                   Z.land n 255]
  else Raise StructError.

(** ** Constants of the module *)

Definition BL_ADDR : Z := 0x64.
Definition BL_ACK : bytes := [Byte.x79].
Definition BL_NACK : bytes := [Byte.x1f].
Definition BL_BUSY : bytes := [Byte.x76].
Definition FLASH_START : Z := 0x08000000.

(** ** [add_xor_check] *)

(** The loop [for b in lst: rv ^= b], started from [rv]. *)
Definition xor_loop (rv : Z) (lst : bytes) : Z :=
  fold_left (fun acc b => Z.lxor acc (int_of_byte b)) lst rv.

Definition add_xor_check (lst : bytes) : result bytes :=
  let rv := xor_loop 0 lst in
  result_map (fun chk => lst ++ chk) (bytes_of_ints [rv]).

(** The XOR of all bytes of a sequence, as the specification words it. *)
Fixpoint xor_all (s : bytes) : Z :=
  match s with
  | [] => 0
  | b :: s' => Z.lxor (int_of_byte b) (xor_all s')
  end.

(** ** The bus, the trace and the monad *)

(** What the driver does to the outside world, in order. *)
Inductive event : Type :=
| EvWrite (addr : Z) (buf : bytes)   (* i2c.writeto(addr, buf) *)
| EvRead (addr : Z) (nbytes : Z)     (* i2c.readfrom(addr, nbytes) *)
| EvSleep (ms : Z).                  (* utime.sleep_ms(ms) *)

Definition trace := list event.

(** The far end of the bus.  Each answer may depend on everything that
    happened before, the call being answered included (it is the last event
    of the trace handed over).  A write is acknowledged or not; a read
    delivers bytes or fails.  Both failures surface as [OSError]. *)
Record device : Type := {
  dev_write : trace -> bool;
  dev_read : trace -> option bytes
}.

(** A computation reads and extends the trace, and returns or raises. *)
Definition M (A : Type) : Type := trace -> result A * trace.

Definition ret {A : Type} (a : A) : M A := fun tr => (Ok a, tr).

Definition raise {A : Type} (e : exn) : M A := fun tr => (Raise e, tr).

Definition bind {A B : Type} (m : M A) (f : A -> M B) : M B :=
  fun tr =>
    match m tr with
    | (Ok a, tr') => f a tr'
    | (Raise e, tr') => (Raise e, tr')
    end.

(** A pure step that may raise. *)
Definition lift {A : Type} (r : result A) : M A := fun tr => (r, tr).

(** [assert c] *)
Definition assert_ (c : bool) : M unit :=
  if c then ret tt else raise AssertionError.

Declare Scope py_scope.
Delimit Scope py_scope with py.
Notation "x <- m ;; k" := (bind m (fun x => k))
  (at level 100, m at next level, right associativity) : py_scope.
Notation "m ;; k" := (bind m (fun _ => k))
  (at level 100, right associativity) : py_scope.
Local Open Scope py_scope.

(** How many bus reads, and how many bus calls, a stretch of trace holds. *)
Definition is_read (e : event) : bool :=
  match e with EvRead _ _ => true | _ => false end.

Definition is_bus_call (e : event) : bool :=
  match e with EvSleep _ => false | _ => true end.

Definition count_reads (evs : list event) : nat :=
  List.length (filter is_read evs).

Definition count_bus_calls (evs : list event) : nat :=
  List.length (filter is_bus_call evs).

(** One status read: [i2c.readfrom(BL_ADDR, 1)]. *)
Definition poll : event := EvRead BL_ADDR 1.

(** ** The I2C primitives *)

Section Bus.

Variable i2c : device.

Definition writeto (addr : Z) (buf : bytes) : M unit :=
  fun tr =>
    let tr' := tr ++ [EvWrite addr buf] in
    if dev_write i2c tr' then (Ok tt, tr') else (Raise OSError, tr').

Definition readfrom (addr nbytes : Z) : M bytes :=
  fun tr =>
    let tr' := tr ++ [EvRead addr nbytes] in
    match dev_read i2c tr' with
    | Some b => (Ok b, tr')
    | None => (Raise OSError, tr')
    end.

End Bus.

Definition sleep_ms (ms : Z) : M unit :=
  fun tr => (Ok tt, tr ++ [EvSleep ms]).

(** [try: x = m / except OSError: ...]: [None] when the handler is taken. *)
Definition try_OSError {A : Type} (m : M A) : M (option A) :=
  fun tr =>
    match m tr with
    | (Ok a, tr') => (Ok (Some a), tr')
    | (Raise OSError, tr') => (Ok None, tr')
    | (Raise e, tr') => (Raise e, tr')
    end.

(** An [addr] or [arg2] argument: [isinstance(x, int)] or a byte sequence. *)
Inductive pyarg : Type :=
| PyInt (n : Z)
| PyBytes (b : bytes).

(** ** class GPUAccess *)

Module GPUAccess.
Section Methods.

(** [self.i2c] *)
Variable i2c : device.

Definition _send_cmd (cmd : Z) : M unit :=
  frame <- lift (bytes_of_ints [cmd; Z.lxor 0xff cmd]) ;;
  writeto i2c BL_ADDR frame ;;
  resp <- readfrom i2c BL_ADDR 1 ;;
  if negb (bytes_eqb resp BL_ACK) then raise (ValueError "unknown command")
  else ret tt.

Definition bl_cmd_read (cmd expect_len : Z) (addr arg2 : option pyarg)
    (no_final : bool) : M (option bytes) :=
  _send_cmd cmd ;;
  match addr with
  | Some a =>
      qq <- lift match a with
                 | PyInt n => result_bind (struct_pack_I n) add_xor_check
                 | PyBytes b => Ok b
                 end ;;
      writeto i2c BL_ADDR qq ;;
      resp <- readfrom i2c BL_ADDR 1 ;;
      if negb (bytes_eqb resp BL_ACK) then raise (ValueError "bad addr")
      else ret tt
  | None => ret tt
  end ;;
  match arg2 with
  | Some a =>
      frame <- lift match a with
                    | PyInt n => bytes_of_ints [n; Z.lxor 0xff n]
                    | PyBytes b => add_xor_check b
                    end ;;
      writeto i2c BL_ADDR frame ;;
      resp <- readfrom i2c BL_ADDR 1 ;;
      if negb (bytes_eqb resp BL_ACK) then raise (ValueError "bad arg2")
      else ret tt
  | None => ret tt
  end ;;
  if expect_len =? 0 then ret None
  else
    rv <- readfrom i2c BL_ADDR expect_len ;;
    (if negb no_final then
       resp <- readfrom i2c BL_ADDR 1 ;;
       if negb (bytes_eqb resp BL_ACK) then raise (ValueErrorResp resp)
       else ret tt
     else ret tt) ;;
    ret (Some rv).

(** The body of [for retry in range(100)], with [retries] iterations left;
    [resp] is the local of that name, [None] while it is unassigned. *)
Fixpoint wait_loop (retries : nat) (resp : option bytes) : M (option bytes) :=
  match retries with
  | O => ret resp
  | S retries' =>
      r <- try_OSError (readfrom i2c BL_ADDR 1) ;;
      match r with
      | None =>
          sleep_ms 50 ;;
          wait_loop retries' resp
      | Some b =>
          if negb (bytes_eqb b BL_BUSY) then ret (Some b)
          else
            sleep_ms 20 ;;
            wait_loop retries' (Some b)
      end
  end.

Definition _wait_done : M bytes :=
  resp <- wait_loop 100 None ;;
  match resp with
  | Some b => ret b
  | None => raise NameError
  end.

Definition bl_doit (cmd : Z) (arg : bytes) : M bytes :=
  _send_cmd cmd ;;
  frame <- lift (add_xor_check arg) ;;
  writeto i2c BL_ADDR frame ;;
  _wait_done.

Definition bl_double_ack (cmd : Z) : M bytes :=
  _send_cmd cmd ;;
  resp <- _wait_done ;;
  if bytes_eqb resp BL_ACK then _wait_done
  else ret resp.

Definition get_version : M (option bytes) :=
  bl_cmd_read 0x0 20 None None false.

Definition bulk_erase : M bool :=
  resp <- bl_doit 0x45 [Byte.xff; Byte.xff] ;;
  ret (bytes_eqb resp BL_ACK).

Definition readout_unprotect : M bytes := bl_double_ack 0x93.

Definition readout_protect : M bytes := bl_double_ack 0x83.

Definition read_at (addr : pyarg) (ln : Z) : M (option bytes) :=
  assert_ (ln <=? 256) ;;
  bl_cmd_read 0x11 ln (Some addr) (Some (PyInt (ln - 1))) true.

Definition write_at (addr : Z) (data : bytes) : M bool :=
  let ln := Z.of_nat (List.length data) in
  assert_ (ln <=? 256) ;;
  assert_ (ln mod 4 =? 0) ;;
  assert_ (addr mod 4 =? 0) ;;
  arg <- lift (result_bind (bytes_of_ints [ln - 1])
                 (fun hd => add_xor_check (hd ++ data))) ;;
  bl_cmd_read 0x32 0 (Some (PyInt addr)) None false ;;
  writeto i2c BL_ADDR arg ;;
  resp <- _wait_done ;;
  ret (bytes_eqb resp BL_ACK).

Definition run_at (addr : Z) : M unit :=
  bl_cmd_read 0x21 0 (Some (PyInt addr)) None false ;;
  ret tt.

End Methods.
End GPUAccess.

(** ** Specification-side vocabulary *)

(** The polling of the specification, as a relation: with [n] attempts
    left after trace [t], the loop adds the events [evs].  An attempt that
    yields BUSY is followed by a 20 ms sleep and the next attempt; one that
    fails on the bus is followed by a 50 ms sleep and the next attempt; any
    other status ends the polling.  Each attempt uses one of the [n]. *)
Inductive polling (i2c : device) : nat -> trace -> list event -> Prop :=
| polling_exhausted t :
    polling i2c 0 t []
| polling_done n t st :
    dev_read i2c (t ++ [poll]) = Some st -> st <> BL_BUSY ->
    polling i2c (S n) t [poll]
| polling_busy n t evs :
    dev_read i2c (t ++ [poll]) = Some BL_BUSY ->
    polling i2c n (t ++ [poll; EvSleep 20]) evs ->
    polling i2c (S n) t (poll :: EvSleep 20 :: evs)
| polling_absent n t evs :
    dev_read i2c (t ++ [poll]) = None ->
    polling i2c n (t ++ [poll; EvSleep 50]) evs ->
    polling i2c (S n) t (poll :: EvSleep 50 :: evs).

(** [n] attempts, each followed by a sleep of [ms] milliseconds. *)
Fixpoint sleepy_polls (ms : Z) (n : nat) : list event :=
  match n with
  | O => []
  | S n' => poll :: EvSleep ms :: sleepy_polls ms n'
  end.

(** ** The stages of [bl_cmd_read], named *)

(** The frame written for an [addr] argument, and for an [arg2] argument. *)
Definition addr_frame (a : pyarg) : result bytes :=
  match a with
  | PyInt n => result_bind (struct_pack_I n) add_xor_check
  | PyBytes b => Ok b
  end.

Definition arg2_frame (a : pyarg) : result bytes :=
  match a with
  | PyInt n => bytes_of_ints [n; Z.lxor 0xff n]
  | PyBytes b => add_xor_check b
  end.

(** Write one frame, read one status byte, insist on ACKNOWLEDGE. *)
Definition frame_stage (i2c : device) (fr : result bytes) (msg : string) : M unit :=
  (qq <- lift fr ;;
   writeto i2c BL_ADDR qq ;;
   resp <- readfrom i2c BL_ADDR 1 ;;
   if negb (bytes_eqb resp BL_ACK) then raise (ValueError msg)
   else ret tt)%py.

(** What follows the frames: the payload and the final status. *)
Definition payload_stage (i2c : device) (expect_len : Z) (no_final : bool)
    : M (option bytes) :=
  (if expect_len =? 0 then ret None
   else
     rv <- readfrom i2c BL_ADDR expect_len ;;
     (if negb no_final then
        resp <- readfrom i2c BL_ADDR 1 ;;
        if negb (bytes_eqb resp BL_ACK) then raise (ValueErrorResp resp)
        else ret tt
      else ret tt) ;;
     ret (Some rv))%py.

Definition opt_stage (i2c : device) (frame : pyarg -> result bytes)
    (msg : string) (a : option pyarg) : M unit :=
  match a with
  | Some x => frame_stage i2c (frame x) msg
  | None => ret tt
  end.

(** ** Measures of a stretch of trace *)

Definition is_write (e : event) : bool :=
  match e with EvWrite _ _ => true | _ => false end.

Definition count_writes (evs : list event) : nat :=
  List.length (filter is_write evs).

(** The milliseconds slept. *)
Fixpoint total_sleep (evs : list event) : Z :=
  match evs with
  | [] => 0
  | EvSleep ms :: evs' => ms + total_sleep evs'
  | _ :: evs' => total_sleep evs'
  end.

(** A stretch of trace with at most [w] bus writes, at most [r] bus reads
    and at most [s] milliseconds of sleep. *)
Definition uses (w r : nat) (s : Z) (evs : list event) : Prop :=
  (count_writes evs <= w)%nat /\ (count_reads evs <= r)%nat /\
  0 <= total_sleep evs <= s.

(** A computation that, from any trace and whatever it returns or raises,
    only adds such a stretch. *)
Definition within {A : Type} (m : M A) (w r : nat) (s : Z) : Prop :=
  forall t, exists res evs, m t = (res, t ++ evs) /\ uses w r s evs.

(** One for an argument that is given, none for one that is not. *)
Definition given {A : Type} (o : option A) : nat :=
  match o with Some _ => 1%nat | None => 0%nat end.

(** The reads of the payload part of [bl_cmd_read]. *)
Definition payload_reads (expect_len : Z) (no_final : bool) : nat :=
  if expect_len =? 0 then 0%nat else if no_final then 1%nat else 2%nat.

(** The events of polling attempts that are retried: [None] is an attempt
    that failed on the bus (50 ms), [Some _] one that was answered (20 ms,
    as for BUSY). *)
Fixpoint retry_events (outs : list (option bytes)) : list event :=
  match outs with
  | [] => []
  | None :: outs' => poll :: EvSleep 50 :: retry_events outs'
  | Some _ :: outs' => poll :: EvSleep 20 :: retry_events outs'
  end.

(** An outcome after which the loop goes round again. *)
Definition retried (o : option bytes) : Prop := o = None \/ o = Some BL_BUSY.

(** ** Mode control *)

(** [Pin.IN], [Pin.OUT_PP], [Pin.OPEN_DRAIN] *)
Inductive pin_mode : Type := PinIN | PinOUT_PP | PinOPEN_DRAIN.

(** The two control lines as the driver leaves them: the level written to
    [g_reset] (open drain, pulled up), the mode of [g_boot0] and the level
    last written to it.  [released_with] is a record kept for the proofs:
    the mode and level of [g_boot0] at each moment [g_reset] went from low
    to high, oldest first. *)
Record lines : Type := {
  reset_level : bool;
  boot0_mode : pin_mode;
  boot0_level : bool;
  released_with : list (pin_mode * bool)
}.

(** [self.g_reset(v)] *)
Definition g_reset (v : bool) (p : lines) : lines :=
  {| reset_level := v;
     boot0_mode := boot0_mode p;
     boot0_level := boot0_level p;
     released_with :=
       if negb (reset_level p) && v
       then released_with p ++ [(boot0_mode p, boot0_level p)]
       else released_with p |}.

(** [self.g_boot0.init(mode=m)] *)
Definition g_boot0_init (m : pin_mode) (p : lines) : lines :=
  {| reset_level := reset_level p;
     boot0_mode := m;
     boot0_level := boot0_level p;
     released_with := released_with p |}.

(** [self.g_boot0(v)] *)
Definition g_boot0 (v : bool) (p : lines) : lines :=
  {| reset_level := reset_level p;
     boot0_mode := boot0_mode p;
     boot0_level := v;
     released_with := released_with p |}.

(** The methods [GPUAccess.reset] and [GPUAccess.enter_bl]. *)
Module ModeControl.

Definition reset (p : lines) : lines :=
  let p := g_boot0_init PinIN p in
  let p := g_reset false p in
  g_reset true p.

Definition enter_bl (p : lines) : lines :=
  let p := g_reset false p in
  let p := g_boot0_init PinOUT_PP p in
  let p := g_boot0 true p in
  let p := g_reset true p in
  g_boot0_init PinIN p.

End ModeControl.

(** ** Simulated devices *)

(** Acknowledges every write and answers every read with [r]. *)
Definition const_dev (r : option bytes) : device :=
  {| dev_write := fun _ => true; dev_read := fun _ => r |}.

(** Acknowledges every write; the [k]-th read of the trace (from 0) gets the
    [k]-th entry of [script], and [dflt] once the script is used up. *)
Definition script_dev (script : list (option bytes)) (dflt : option bytes) : device :=
  {| dev_write := fun _ => true;
     dev_read := fun tr => nth (Nat.pred (count_reads tr)) script dflt |}.

(** * Properties *)

(** Unfolds one monadic step. *)
Ltac step :=
  unfold bind, lift, ret, raise, writeto, readfrom, sleep_ms, try_OSError,
    assert_; cbv zeta.

(** ** Bytes *)

Lemma bytes_eqb_eq (a b : bytes) : bytes_eqb a b = true <-> a = b.
Proof.
  revert b; induction a as [|x a IH]; intros [|y b]; simpl;
    try (split; [discriminate | congruence]).
  - tauto.
  - rewrite andb_true_iff, IH. split.
    + intros [Hxy ->]. apply Byte.byte_dec_bl in Hxy. congruence.
    + intros E; injection E as -> ->. split; [now apply Byte.byte_dec_lb | reflexivity].
Qed.

Lemma bytes_eqb_refl (a : bytes) : bytes_eqb a a = true.
Proof. now apply bytes_eqb_eq. Qed.

Lemma bytes_eqb_neq (a b : bytes) : bytes_eqb a b = false <-> a <> b.
Proof.
  rewrite <- bytes_eqb_eq. destruct (bytes_eqb a b); split; congruence.
Qed.

Lemma int_of_byte_range (b : Byte.byte) : 0 <= int_of_byte b < 256.
Proof.
  unfold int_of_byte. pose proof (Byte.to_N_bounded b). lia.
Qed.

Lemma byte_of_int_of_byte (b : Byte.byte) : byte_of_int (int_of_byte b) = Some b.
Proof.
  unfold byte_of_int, int_of_byte.
  destruct (Z.ltb_spec (Z.of_N (Byte.to_N b)) 0); [lia|].
  rewrite N2Z.id. apply Byte.of_to_N.
Qed.

Lemma byte_of_int_Some (z : Z) (b : Byte.byte) :
  byte_of_int z = Some b <-> int_of_byte b = z.
Proof.
  split.
  - unfold byte_of_int, int_of_byte.
    destruct (Z.ltb_spec z 0); [discriminate|].
    intros E. apply Byte.to_of_N in E. rewrite E. lia.
  - intros <-. apply byte_of_int_of_byte.
Qed.

(** A byte is determined by its value. *)
Lemma int_of_byte_is (b : Byte.byte) (z : Z) (c : Byte.byte) :
  int_of_byte b = z -> byte_of_int z = Some c -> b = c.
Proof.
  intros <- E. rewrite byte_of_int_of_byte in E. congruence.
Qed.

Lemma byte_of_int_None (z : Z) : byte_of_int z = None <-> ~ (0 <= z < 256).
Proof.
  unfold byte_of_int. destruct (Z.ltb_spec z 0).
  - split; [lia | reflexivity].
  - rewrite Byte.of_N_None_iff. lia.
Qed.

Lemma byte_of_int_in_range (z : Z) :
  0 <= z < 256 -> exists b, byte_of_int z = Some b /\ int_of_byte b = z.
Proof.
  intros Hz. destruct (byte_of_int z) as [b|] eqn:E.
  - exists b. split; [reflexivity | now apply byte_of_int_Some].
  - apply byte_of_int_None in E. contradiction.
Qed.

Lemma lxor_byte_range (a b : Z) :
  0 <= a < 256 -> 0 <= b < 256 -> 0 <= Z.lxor a b < 256.
Proof.
  intros Ha Hb.
  assert (Hnn : 0 <= Z.lxor a b) by (apply Z.lxor_nonneg; lia).
  split; [exact Hnn|].
  destruct (Z.eq_dec (Z.lxor a b) 0) as [->|Hne]; [lia|].
  change 256 with (2 ^ 8). apply Z.log2_lt_pow2; [lia|].
  pose proof (Z.log2_lxor a b (proj1 Ha) (proj1 Hb)) as Hl.
  assert (Hla : Z.log2 a < 8).
  { destruct (Z.eq_dec a 0) as [->|]; [reflexivity|].
    apply Z.log2_lt_pow2; [lia|]. change (2 ^ 8) with 256. lia. }
  assert (Hlb : Z.log2 b < 8).
  { destruct (Z.eq_dec b 0) as [->|]; [reflexivity|].
    apply Z.log2_lt_pow2; [lia|]. change (2 ^ 8) with 256. lia. }
  lia.
Qed.

(** ** The XOR check *)

Lemma xor_all_range (s : bytes) : 0 <= xor_all s < 256.
Proof.
  induction s as [|b s IH]; simpl; [lia|].
  apply lxor_byte_range; [apply int_of_byte_range | exact IH].
Qed.

Lemma xor_all_app (a b : bytes) :
  xor_all (a ++ b) = Z.lxor (xor_all a) (xor_all b).
Proof.
  induction a as [|x a IH]; simpl.
  - reflexivity.
  - now rewrite IH, Z.lxor_assoc.
Qed.

(** The accumulating loop of the source computes the XOR of the bytes. *)
Lemma xor_loop_xor_all (rv : Z) (s : bytes) :
  xor_loop rv s = Z.lxor rv (xor_all s).
Proof.
  unfold xor_loop. revert rv; induction s as [|b s IH]; intros rv; simpl.
  - now rewrite Z.lxor_0_r.
  - now rewrite IH, Z.lxor_assoc.
Qed.

(** The checksum byte of [s], as a byte. *)
Lemma xor_check_byte (s : bytes) :
  exists chk, byte_of_int (xor_all s) = Some chk /\ int_of_byte chk = xor_all s.
Proof. apply byte_of_int_in_range, xor_all_range. Qed.

Lemma add_xor_check_ok (s : bytes) :
  exists chk,
    add_xor_check s = Ok (s ++ [chk]) /\ int_of_byte chk = xor_all s.
Proof.
  destruct (xor_check_byte s) as [chk [E Hc]].
  exists chk. split; [|exact Hc].
  unfold add_xor_check. cbv zeta. rewrite xor_loop_xor_all.
  change (Z.lxor 0 (xor_all s)) with (xor_all s).
  simpl. now rewrite E.
Qed.

(** C3: for every byte sequence [s], [add_xor_check s] returns [s] followed
    by exactly one byte, the XOR of all bytes of [s] (0 for the empty
    sequence); the result is one byte longer than [s] and the XOR of all its
    bytes is 0. *)
Theorem add_xor_check_spec (s : bytes) :
  xor_all [] = 0 /\
  exists chk : Byte.byte,
    add_xor_check s = Ok (s ++ [chk]) /\
    int_of_byte chk = xor_all s /\
    List.length (s ++ [chk]) = S (List.length s) /\
    xor_all (s ++ [chk]) = 0.
Proof.
  split; [reflexivity|].
  destruct (add_xor_check_ok s) as [chk [E Hc]].
  exists chk. repeat split; try assumption.
  - rewrite length_app. simpl. lia.
  - rewrite xor_all_app. simpl. rewrite Z.lxor_0_r, Hc.
    apply Z.lxor_nilpotent.
Qed.

(** ** Frames *)

(** A command byte and its complement both fit a byte. *)
Lemma cmd_frame_bytes (c : Z) :
  0 <= c < 256 ->
  exists b nb,
    bytes_of_ints [c; Z.lxor 0xff c] = Ok [b; nb] /\
    int_of_byte b = c /\ int_of_byte nb = Z.lxor 0xff c.
Proof.
  intros Hc.
  destruct (byte_of_int_in_range c Hc) as [b [Eb Hb]].
  assert (Hn : 0 <= Z.lxor 0xff c < 256) by (apply lxor_byte_range; lia).
  destruct (byte_of_int_in_range _ Hn) as [nb [Enb Hnb]].
  exists b, nb. unfold bytes_of_ints. now rewrite Eb, Enb.
Qed.

(** ** Running a computation *)

Lemma snoc2 {A : Type} (l : list A) (x y : A) : (l ++ [x]) ++ [y] = l ++ [x; y].
Proof. now rewrite <- app_assoc. Qed.

(** Running a sequence whose first part is known. *)
Lemma bind_ok {A B : Type} (m : M A) (k : A -> M B) (tr t' : trace) (a : A) :
  m tr = (Ok a, t') -> bind m k tr = k a t'.
Proof. intros H. unfold bind. now rewrite H. Qed.

Lemma bind_raise {A B : Type} (m : M A) (k : A -> M B) (tr t' : trace) (e : exn) :
  m tr = (Raise e, t') -> bind m k tr = (Raise e, t').
Proof. intros H. unfold bind. now rewrite H. Qed.

(** ** [_send_cmd] *)

(** The run of [_send_cmd] once its frame is known. *)
Lemma send_cmd_run (i2c : device) (c : Z) (b nb : Byte.byte) (tr : trace) :
  bytes_of_ints [c; Z.lxor 0xff c] = Ok [b; nb] ->
  GPUAccess._send_cmd i2c c tr =
    (if dev_write i2c (tr ++ [EvWrite BL_ADDR [b; nb]]) then
       match dev_read i2c (tr ++ [EvWrite BL_ADDR [b; nb]; poll]) with
       | Some st =>
           (if bytes_eqb st BL_ACK then Ok tt
            else Raise (ValueError "unknown command"),
            tr ++ [EvWrite BL_ADDR [b; nb]; poll])
       | None => (Raise OSError, tr ++ [EvWrite BL_ADDR [b; nb]; poll])
       end
     else (Raise OSError, tr ++ [EvWrite BL_ADDR [b; nb]])).
Proof.
  intros E. unfold GPUAccess._send_cmd. step. rewrite E.
  destruct (dev_write i2c _); [|reflexivity].
  rewrite snoc2. fold poll.
  destruct (dev_read i2c _) as [st|]; [|reflexivity].
  destruct (bytes_eqb st BL_ACK); reflexivity.
Qed.

Lemma send_cmd_acked (i2c : device) (c : Z) (b nb : Byte.byte) (tr : trace) :
  bytes_of_ints [c; Z.lxor 0xff c] = Ok [b; nb] ->
  dev_write i2c (tr ++ [EvWrite BL_ADDR [b; nb]]) = true ->
  dev_read i2c (tr ++ [EvWrite BL_ADDR [b; nb]; poll]) = Some BL_ACK ->
  GPUAccess._send_cmd i2c c tr = (Ok tt, tr ++ [EvWrite BL_ADDR [b; nb]; poll]).
Proof.
  intros E Hw Hr. now rewrite (send_cmd_run i2c c b nb tr E), Hw, Hr.
Qed.

Lemma send_cmd_refused (i2c : device) (c : Z) (b nb : Byte.byte) (tr : trace) (st : bytes) :
  bytes_of_ints [c; Z.lxor 0xff c] = Ok [b; nb] ->
  dev_write i2c (tr ++ [EvWrite BL_ADDR [b; nb]]) = true ->
  dev_read i2c (tr ++ [EvWrite BL_ADDR [b; nb]; poll]) = Some st ->
  st <> BL_ACK ->
  GPUAccess._send_cmd i2c c tr =
    (Raise (ValueError "unknown command"), tr ++ [EvWrite BL_ADDR [b; nb]; poll]).
Proof.
  intros E Hw Hr Hne. rewrite (send_cmd_run i2c c b nb tr E), Hw, Hr.
  apply bytes_eqb_neq in Hne. now rewrite Hne.
Qed.

(** C2: for every command byte [c], [_send_cmd] writes exactly the two-byte
    frame [{c, 0xFF ^ c}] to the bootloader address 0x64 and then reads one
    status byte; it returns normally when that status is ACKNOWLEDGE (0x79)
    and raises [ValueError] otherwise.  (A bus failure on either call
    surfaces as [OSError] and ends the exchange there.) *)
Theorem send_cmd_spec (i2c : device) (c : Z) (tr : trace) :
  0 <= c < 256 ->
  exists b nb : Byte.byte,
    int_of_byte b = c /\
    int_of_byte nb = Z.lxor 0xff c /\
    let t1 := tr ++ [EvWrite 0x64 [b; nb]] in
    let t2 := tr ++ [EvWrite 0x64 [b; nb]; EvRead 0x64 1] in
    GPUAccess._send_cmd i2c c tr =
      (if dev_write i2c t1 then
         match dev_read i2c t2 with
         | Some st =>
             (if bytes_eqb st [Byte.x79] then Ok tt
              else Raise (ValueError "unknown command"), t2)
         | None => (Raise OSError, t2)
         end
       else (Raise OSError, t1)) /\
    (forall st, dev_write i2c t1 = true -> dev_read i2c t2 = Some st ->
       (st = [Byte.x79] -> GPUAccess._send_cmd i2c c tr = (Ok tt, t2)) /\
       (st <> [Byte.x79] ->
        GPUAccess._send_cmd i2c c tr = (Raise (ValueError "unknown command"), t2))).
Proof.
  intros Hc.
  destruct (cmd_frame_bytes c Hc) as (b & nb & E & Hb & Hnb).
  exists b, nb. split; [exact Hb|]. split; [exact Hnb|].
  cbv zeta. split; [exact (send_cmd_run i2c c b nb tr E)|].
  intros st Hw Hr. split.
  - intros ->. now apply send_cmd_acked.
  - intros Hne. now apply send_cmd_refused with st.
Qed.

Lemma send_cmd_spec_witness :
  0 <= 0x45 < 256 /\
  GPUAccess._send_cmd (const_dev (Some BL_ACK)) 0x45 [] =
    (Ok tt, [EvWrite 0x64 [Byte.x45; Byte.xba]; EvRead 0x64 1]).
Proof.
  split; [lia|].
  destruct (send_cmd_spec (const_dev (Some BL_ACK)) 0x45 [])
    as (b & nb & Hb & Hnb & E & _); [lia|].
  apply byte_of_int_Some in Hb, Hnb.
  injection Hb as <-. injection Hnb as <-. exact E.
Defined.

(** ** Busy-polling *)

Lemma count_reads_sleepy_polls (ms : Z) (n : nat) :
  count_reads (sleepy_polls ms n) = n.
Proof.
  unfold count_reads. induction n as [|n IH]; simpl; [reflexivity | now rewrite IH].
Qed.

Section Polling.

Variable i2c : device.

Lemma wait_loop_busy (n : nat) (resp : option bytes) (t : trace) :
  dev_read i2c (t ++ [poll]) = Some BL_BUSY ->
  GPUAccess.wait_loop i2c (S n) resp t =
  GPUAccess.wait_loop i2c n (Some BL_BUSY) (t ++ [poll; EvSleep 20]).
Proof.
  intros H. simpl. step.
  change (t ++ [EvRead BL_ADDR 1]) with (t ++ [poll]). rewrite H.
  rewrite bytes_eqb_refl. simpl. now rewrite snoc2.
Qed.

Lemma wait_loop_absent (n : nat) (resp : option bytes) (t : trace) :
  dev_read i2c (t ++ [poll]) = None ->
  GPUAccess.wait_loop i2c (S n) resp t =
  GPUAccess.wait_loop i2c n resp (t ++ [poll; EvSleep 50]).
Proof.
  intros H. simpl. step.
  change (t ++ [EvRead BL_ADDR 1]) with (t ++ [poll]). rewrite H.
  now rewrite snoc2.
Qed.

Lemma wait_loop_done (n : nat) (resp : option bytes) (t : trace) (st : bytes) :
  dev_read i2c (t ++ [poll]) = Some st -> st <> BL_BUSY ->
  GPUAccess.wait_loop i2c (S n) resp t = (Ok (Some st), t ++ [poll]).
Proof.
  intros H Hne. simpl. step.
  change (t ++ [EvRead BL_ADDR 1]) with (t ++ [poll]). rewrite H.
  apply bytes_eqb_neq in Hne. now rewrite Hne.
Qed.

(** The loop follows the polling relation, and never raises. *)
Lemma wait_loop_polling (n : nat) :
  forall resp t, exists r evs,
    GPUAccess.wait_loop i2c n resp t = (Ok r, t ++ evs) /\ polling i2c n t evs.
Proof.
  induction n as [|n IH]; intros resp t.
  - exists resp, []. split; [now rewrite app_nil_r | constructor].
  - destruct (dev_read i2c (t ++ [poll])) as [st|] eqn:E.
    + destruct (bytes_eqb st BL_BUSY) eqn:Eb.
      * apply bytes_eqb_eq in Eb; subst st.
        destruct (IH (Some BL_BUSY) (t ++ [poll; EvSleep 20])) as (r & evs & Hr & Hp).
        exists r, (poll :: EvSleep 20 :: evs). split.
        -- rewrite wait_loop_busy by exact E. rewrite Hr.
           now rewrite <- app_assoc.
        -- now apply polling_busy.
      * apply bytes_eqb_neq in Eb.
        exists (Some st), [poll]. split.
        -- now apply wait_loop_done.
        -- now apply polling_done with st.
    + destruct (IH resp (t ++ [poll; EvSleep 50])) as (r & evs & Hr & Hp).
      exists r, (poll :: EvSleep 50 :: evs). split.
      * rewrite wait_loop_absent by exact E. rewrite Hr.
        now rewrite <- app_assoc.
      * now apply polling_absent.
Qed.

Lemma polling_count (n : nat) (t : trace) (evs : list event) :
  polling i2c n t evs -> (count_reads evs <= n)%nat.
Proof.
  unfold count_reads.
  induction 1; simpl in *; lia.
Qed.

Lemma polling_reads_once (n : nat) (t : trace) (evs : list event) :
  polling i2c (S n) t evs -> (1 <= count_reads evs)%nat.
Proof.
  unfold count_reads. inversion 1; subst; simpl; lia.
Qed.

(** As long as every attempt gets the same retried outcome, the loop runs
    its whole budget. *)
Lemma wait_loop_all_busy (n : nat) :
  forall resp t,
    (forall k, (k < n)%nat ->
       dev_read i2c (t ++ sleepy_polls 20 k ++ [poll]) = Some BL_BUSY) ->
    GPUAccess.wait_loop i2c n resp t =
      (Ok (match n with O => resp | S _ => Some BL_BUSY end),
       t ++ sleepy_polls 20 n).
Proof.
  induction n as [|n IH]; intros resp t H.
  - simpl. unfold ret. now rewrite app_nil_r.
  - rewrite wait_loop_busy by (apply (H 0%nat); lia).
    rewrite IH.
    + simpl. rewrite <- app_assoc. simpl. now destruct n.
    + intros k Hk. specialize (H (S k) ltac:(lia)).
      simpl in H. rewrite <- app_assoc. exact H.
Qed.

Lemma wait_loop_all_absent (n : nat) :
  forall resp t,
    (forall k, (k < n)%nat ->
       dev_read i2c (t ++ sleepy_polls 50 k ++ [poll]) = None) ->
    GPUAccess.wait_loop i2c n resp t = (Ok resp, t ++ sleepy_polls 50 n).
Proof.
  induction n as [|n IH]; intros resp t H.
  - simpl. unfold ret. now rewrite app_nil_r.
  - rewrite wait_loop_absent by (apply (H 0%nat); lia).
    rewrite IH.
    + simpl. now rewrite <- app_assoc.
    + intros k Hk. specialize (H (S k) ltac:(lia)).
      simpl in H. rewrite <- app_assoc. exact H.
Qed.

(** A status that the loop hands back was delivered by a read of this run,
    unless it is the value the local started with. *)
Lemma wait_loop_observed (n : nat) :
  forall resp t r t',
    GPUAccess.wait_loop i2c n resp t = (Ok r, t') ->
    r = resp \/
    exists evs st, r = Some st /\ dev_read i2c (t ++ evs ++ [poll]) = Some st.
Proof.
  induction n as [|n IH]; intros resp t r t' H.
  - left. simpl in H. unfold ret in H. congruence.
  - destruct (dev_read i2c (t ++ [poll])) as [st|] eqn:E.
    + destruct (bytes_eqb st BL_BUSY) eqn:Eb.
      * apply bytes_eqb_eq in Eb; subst st.
        rewrite wait_loop_busy in H by exact E.
        apply IH in H. destruct H as [->|(evs & st & -> & Hd)].
        -- right. exists [], BL_BUSY. now split.
        -- right. exists (poll :: EvSleep 20 :: evs), st. split; [reflexivity|].
           rewrite <- app_assoc in Hd. exact Hd.
      * apply bytes_eqb_neq in Eb.
        rewrite (wait_loop_done n resp t st E Eb) in H.
        right. exists [], st. split; [congruence | exact E].
    + rewrite wait_loop_absent in H by exact E.
      apply IH in H. destruct H as [->|(evs & st & -> & Hd)].
      * now left.
      * right. exists (poll :: EvSleep 50 :: evs), st. split; [reflexivity|].
        rewrite <- app_assoc in Hd. exact Hd.
Qed.

(** [return resp] after the loop. *)
Lemma wait_done_unfold (t : trace) :
  GPUAccess._wait_done i2c t =
    match GPUAccess.wait_loop i2c 100 None t with
    | (Ok (Some b), t') => (Ok b, t')
    | (Ok None, t') => (Raise NameError, t')
    | (Raise e, t') => (Raise e, t')
    end.
Proof.
  unfold GPUAccess._wait_done, bind.
  destruct (GPUAccess.wait_loop i2c 100 None t) as [[[b|]|e] t']; reflexivity.
Qed.

(** Between one and 100 reads, as the polling relation lays them out. *)
Lemma wait_done_polling (t : trace) :
  exists r evs,
    GPUAccess._wait_done i2c t = (r, t ++ evs) /\
    polling i2c 100 t evs /\
    (1 <= count_reads evs <= 100)%nat.
Proof.
  destruct (wait_loop_polling 100 None t) as (r & evs & Hr & Hp).
  exists (match r with Some b => Ok b | None => Raise NameError end), evs.
  split; [|split; [exact Hp|split]].
  - rewrite wait_done_unfold, Hr. destruct r; reflexivity.
  - now apply polling_reads_once with 99%nat t.
  - now apply polling_count with t.
Qed.

End Polling.

(** C1: [_wait_done] always returns or raises after at least one and at
    most 100 status reads, and between them it behaves as the polling
    relation says: a BUSY (0x76) attempt sleeps 20 ms and retries, an attempt
    that fails on the bus sleeps 50 ms and retries, each using up one of the
    100 attempts.  Against a device that answers BUSY to every attempt it
    makes exactly 100 attempts and returns BUSY; it does not raise. *)
Theorem wait_done_bounded (i2c : device) (tr : trace) :
  (exists r evs,
     GPUAccess._wait_done i2c tr = (r, tr ++ evs) /\
     polling i2c 100 tr evs /\
     (1 <= count_reads evs <= 100)%nat) /\
  ((forall k, (k < 100)%nat ->
      dev_read i2c (tr ++ sleepy_polls 20 k ++ [EvRead 0x64 1]) = Some [Byte.x76]) ->
   GPUAccess._wait_done i2c tr = (Ok [Byte.x76], tr ++ sleepy_polls 20 100) /\
   count_reads (sleepy_polls 20 100) = 100%nat).
Proof.
  split.
  - apply wait_done_polling.
  - intros H. split; [|apply count_reads_sleepy_polls].
    rewrite wait_done_unfold, (wait_loop_all_busy i2c 100 None tr H).
    reflexivity.
Qed.

Lemma wait_done_bounded_witness :
  GPUAccess._wait_done (const_dev (Some BL_BUSY)) [] =
    (Ok BL_BUSY, sleepy_polls 20 100) /\
  count_reads (sleepy_polls 20 100) = 100%nat.
Proof.
  apply (proj2 (wait_done_bounded (const_dev (Some BL_BUSY)) [])).
  intros k _. reflexivity.
Defined.

(** C9: when every one of the 100 reads of [_wait_done] fails on the bus,
    the local [resp] is never assigned and the final [return resp] raises:
    no status is returned.  Conversely a status that [_wait_done] returns was
    delivered by one of its reads. *)
Theorem wait_done_all_absent (i2c : device) (tr : trace) :
  ((forall k, (k < 100)%nat ->
      dev_read i2c (tr ++ sleepy_polls 50 k ++ [EvRead 0x64 1]) = None) ->
   GPUAccess._wait_done i2c tr = (Raise NameError, tr ++ sleepy_polls 50 100) /\
   count_reads (sleepy_polls 50 100) = 100%nat) /\
  (forall st, fst (GPUAccess._wait_done i2c tr) = Ok st ->
     exists evs, dev_read i2c (tr ++ evs ++ [EvRead 0x64 1]) = Some st).
Proof.
  split.
  - intros H. split; [|apply count_reads_sleepy_polls].
    rewrite wait_done_unfold, (wait_loop_all_absent i2c 100 None tr H).
    reflexivity.
  - intros st H. rewrite wait_done_unfold in H.
    destruct (GPUAccess.wait_loop i2c 100 None tr) as [[r|e] t'] eqn:E;
      [|discriminate H].
    destruct r as [b|]; [|discriminate H].
    injection H as ->.
    apply wait_loop_observed in E.
    destruct E as [E|(evs & st' & E & Hd)]; [discriminate E|].
    injection E as ->. exists evs. exact Hd.
Qed.

Lemma wait_done_all_absent_witness :
  GPUAccess._wait_done (const_dev None) [] =
    (Raise NameError, sleepy_polls 50 100) /\
  count_reads (sleepy_polls 50 100) = 100%nat.
Proof.
  apply (proj1 (wait_done_all_absent (const_dev None) [])).
  intros k _. reflexivity.
Defined.

(** ** The stages of [bl_cmd_read] *)

Section Stages.

Variable i2c : device.

Lemma bl_cmd_read_stages (cmd expect_len : Z) (addr arg2 : option pyarg)
    (no_final : bool) :
  GPUAccess.bl_cmd_read i2c cmd expect_len addr arg2 no_final =
    (GPUAccess._send_cmd i2c cmd ;;
     opt_stage i2c addr_frame "bad addr" addr ;;
     opt_stage i2c arg2_frame "bad arg2" arg2 ;;
     payload_stage i2c expect_len no_final)%py.
Proof. destruct addr as [[n|b]|], arg2 as [[n'|b']|]; reflexivity. Qed.

Lemma frame_stage_run (frame : bytes) (msg : string) (t : trace) :
  frame_stage i2c (Ok frame) msg t =
    (if dev_write i2c (t ++ [EvWrite BL_ADDR frame]) then
       match dev_read i2c (t ++ [EvWrite BL_ADDR frame; poll]) with
       | Some st =>
           (if bytes_eqb st BL_ACK then Ok tt else Raise (ValueError msg),
            t ++ [EvWrite BL_ADDR frame; poll])
       | None => (Raise OSError, t ++ [EvWrite BL_ADDR frame; poll])
       end
     else (Raise OSError, t ++ [EvWrite BL_ADDR frame])).
Proof.
  unfold frame_stage. step.
  destruct (dev_write i2c _); [|reflexivity].
  rewrite snoc2. fold poll.
  destruct (dev_read i2c _) as [st|]; [|reflexivity].
  destruct (bytes_eqb st BL_ACK); reflexivity.
Qed.

Lemma frame_stage_acked (frame : bytes) (msg : string) (t : trace) :
  dev_write i2c (t ++ [EvWrite BL_ADDR frame]) = true ->
  dev_read i2c (t ++ [EvWrite BL_ADDR frame; poll]) = Some BL_ACK ->
  frame_stage i2c (Ok frame) msg t = (Ok tt, t ++ [EvWrite BL_ADDR frame; poll]).
Proof. intros Hw Hr. now rewrite frame_stage_run, Hw, Hr. Qed.

Lemma frame_stage_refused (frame : bytes) (msg : string) (t : trace) (st : bytes) :
  dev_write i2c (t ++ [EvWrite BL_ADDR frame]) = true ->
  dev_read i2c (t ++ [EvWrite BL_ADDR frame; poll]) = Some st ->
  st <> BL_ACK ->
  frame_stage i2c (Ok frame) msg t =
    (Raise (ValueError msg), t ++ [EvWrite BL_ADDR frame; poll]).
Proof.
  intros Hw Hr Hne. rewrite frame_stage_run, Hw, Hr.
  apply bytes_eqb_neq in Hne. now rewrite Hne.
Qed.

Lemma frame_stage_raise (e : exn) (msg : string) (t : trace) :
  frame_stage i2c (Raise e) msg t = (Raise e, t).
Proof. reflexivity. Qed.

(** A stage only ever adds to the trace, and a [ValueError] it raises
    carries its own message unless building the frame failed. *)
Lemma frame_stage_extends (fr : result bytes) (msg : string) (t : trace) :
  exists r evs,
    frame_stage i2c fr msg t = (r, t ++ evs) /\
    (r = Ok tt \/ r = Raise OSError \/ r = Raise (ValueError msg) \/
     exists e, fr = Raise e /\ r = Raise e).
Proof.
  destruct fr as [frame|e].
  - rewrite frame_stage_run.
    destruct (dev_write i2c _).
    + destruct (dev_read i2c _) as [st|].
      * destruct (bytes_eqb st BL_ACK); eexists; eexists; split;
          try reflexivity; auto.
      * eexists; eexists; split; [reflexivity | auto].
    + eexists; eexists; split; [reflexivity | auto].
  - exists (Raise e), []. rewrite app_nil_r. split; [reflexivity|].
    right; right; right. now exists e.
Qed.

Lemma payload_stage_extends (expect_len : Z) (no_final : bool) (t : trace) :
  exists r evs,
    payload_stage i2c expect_len no_final t = (r, t ++ evs) /\
    (forall msg, r <> Raise (ValueError msg)).
Proof.
  unfold payload_stage. destruct (expect_len =? 0).
  - exists (Ok None), []. rewrite app_nil_r. split; [reflexivity | discriminate].
  - step. destruct (dev_read i2c (t ++ [EvRead BL_ADDR expect_len])) as [rv|].
    + destruct no_final; simpl.
      * eexists; exists [EvRead BL_ADDR expect_len]. split; [reflexivity | discriminate].
      * destruct (dev_read i2c _) as [st|].
        -- destruct (bytes_eqb st BL_ACK); simpl; eexists;
             exists [EvRead BL_ADDR expect_len; EvRead BL_ADDR 1];
             (split; [now rewrite snoc2 | discriminate]).
        -- eexists; exists [EvRead BL_ADDR expect_len; EvRead BL_ADDR 1].
           split; [now rewrite snoc2 | discriminate].
    + eexists; exists [EvRead BL_ADDR expect_len]. split; [reflexivity | discriminate].
Qed.

End Stages.

(** ** Address and argument frames *)

Lemma bytes_of_ints_raise (l : list Z) (e : exn) :
  bytes_of_ints l = Raise e -> e = ValueError "bytes value out of range".
Proof.
  induction l as [|z l IH]; simpl; [discriminate|].
  destruct (byte_of_int z); [|congruence].
  destruct (bytes_of_ints l); simpl; [discriminate|].
  intros E. apply IH. congruence.
Qed.

Lemma add_xor_check_no_raise (s : bytes) (e : exn) : add_xor_check s <> Raise e.
Proof.
  destruct (add_xor_check_ok s) as [chk [E _]]. rewrite E. discriminate.
Qed.

(** [struct.pack('>I', n)] is big-endian: the first byte weighs most. *)
Lemma struct_pack_I_be (n : Z) :
  0 <= n < 2 ^ 32 ->
  exists b3 b2 b1 b0,
    struct_pack_I n = Ok [b3; b2; b1; b0] /\
    n = int_of_byte b3 * 2 ^ 24 + int_of_byte b2 * 2 ^ 16 +
        int_of_byte b1 * 2 ^ 8 + int_of_byte b0.
Proof.
  intros Hn. unfold struct_pack_I.
  destruct (Z.leb_spec 0 n); [|lia].
  destruct (Z.ltb_spec n (2 ^ 32)); [|lia].
  change 255 with (Z.ones 8).
  rewrite !Z.land_ones, !Z.shiftr_div_pow2 by lia.
  assert (R3 : 0 <= n / 2 ^ 24 < 256).
  { split; [apply Z.div_pos; lia|]. apply Z.div_lt_upper_bound; lia. }
  assert (R2 : 0 <= (n / 2 ^ 16) mod 2 ^ 8 < 256) by (apply Z.mod_pos_bound; lia).
  assert (R1 : 0 <= (n / 2 ^ 8) mod 2 ^ 8 < 256) by (apply Z.mod_pos_bound; lia).
  assert (R0 : 0 <= n mod 2 ^ 8 < 256) by (apply Z.mod_pos_bound; lia).
  destruct (byte_of_int_in_range _ R3) as [b3 [E3 V3]].
  destruct (byte_of_int_in_range _ R2) as [b2 [E2 V2]].
  destruct (byte_of_int_in_range _ R1) as [b1 [E1 V1]].
  destruct (byte_of_int_in_range _ R0) as [b0 [E0 V0]].
  exists b3, b2, b1, b0. split.
  - unfold bytes_of_ints. now rewrite E3, E2, E1, E0.
  - rewrite V3, V2, V1, V0.
    change (2 ^ 24) with 16777216. change (2 ^ 16) with 65536.
    change (2 ^ 8) with 256.
    Z.div_mod_to_equations. lia.
Qed.

(** An integer address becomes four big-endian bytes and their XOR. *)
Lemma addr_frame_int (n : Z) :
  0 <= n < 2 ^ 32 ->
  exists b3 b2 b1 b0 chk,
    addr_frame (PyInt n) = Ok [b3; b2; b1; b0; chk] /\
    n = int_of_byte b3 * 2 ^ 24 + int_of_byte b2 * 2 ^ 16 +
        int_of_byte b1 * 2 ^ 8 + int_of_byte b0 /\
    int_of_byte chk = xor_all [b3; b2; b1; b0].
Proof.
  intros Hn.
  destruct (struct_pack_I_be n Hn) as (b3 & b2 & b1 & b0 & E & V).
  destruct (add_xor_check_ok [b3; b2; b1; b0]) as (chk & Ec & Vc).
  exists b3, b2, b1, b0, chk. split; [|split; assumption].
  unfold addr_frame. rewrite E. exact Ec.
Qed.

Lemma arg2_frame_raise (a : pyarg) (e : exn) :
  arg2_frame a = Raise e -> e = ValueError "bytes value out of range".
Proof.
  destruct a as [n|b]; unfold arg2_frame.
  - apply bytes_of_ints_raise.
  - intros E. now apply add_xor_check_no_raise in E.
Qed.

(** ** [bl_cmd_read] *)

Section CmdRead.

Variable i2c : device.

Lemma cmd_read_after_cmd (cmd expect_len : Z) (addr arg2 : option pyarg)
    (no_final : bool) (tr t1 : trace) :
  GPUAccess._send_cmd i2c cmd tr = (Ok tt, t1) ->
  GPUAccess.bl_cmd_read i2c cmd expect_len addr arg2 no_final tr =
    (opt_stage i2c addr_frame "bad addr" addr ;;
     opt_stage i2c arg2_frame "bad arg2" arg2 ;;
     payload_stage i2c expect_len no_final)%py t1.
Proof.
  intros H. rewrite bl_cmd_read_stages.
  rewrite (bind_ok _ _ _ _ _ H). reflexivity.
Qed.

Lemma cmd_read_cmd_raise (cmd expect_len : Z) (addr arg2 : option pyarg)
    (no_final : bool) (tr t1 : trace) (e : exn) :
  GPUAccess._send_cmd i2c cmd tr = (Raise e, t1) ->
  GPUAccess.bl_cmd_read i2c cmd expect_len addr arg2 no_final tr = (Raise e, t1).
Proof.
  intros H. rewrite bl_cmd_read_stages. now apply bind_raise.
Qed.

(** What comes after the address stage adds to the trace and cannot raise
    the address stage's error. *)
Lemma after_addr_extends (arg2 : option pyarg) (expect_len : Z)
    (no_final : bool) (t : trace) :
  exists r evs,
    (opt_stage i2c arg2_frame "bad arg2" arg2 ;;
     payload_stage i2c expect_len no_final)%py t = (r, t ++ evs) /\
    r <> Raise (ValueError "bad addr").
Proof.
  destruct arg2 as [a|]; unfold opt_stage.
  - destruct (frame_stage_extends i2c (arg2_frame a) "bad arg2" t)
      as (r & evs & E & Hr).
    destruct r as [[]|e].
    + rewrite (bind_ok _ _ _ _ _ E).
      destruct (payload_stage_extends i2c expect_len no_final (t ++ evs))
        as (r' & evs' & E' & Hr').
      exists r', (evs ++ evs'). rewrite E', app_assoc. split; [reflexivity|].
      apply Hr'.
    + rewrite (bind_raise _ _ _ _ _ E).
      exists (Raise e), evs. split; [reflexivity|].
      destruct Hr as [Hr|[Hr|[Hr|(e' & Hf & Hr)]]]; try congruence.
      apply arg2_frame_raise in Hf. congruence.
  - destruct (payload_stage_extends i2c expect_len no_final t)
      as (r' & evs' & E' & Hr').
    exists r', evs'. split; [exact E' | apply Hr'].
Qed.

End CmdRead.

(** C7: in [bl_cmd_read] with an address, once the command is acknowledged:
    an integer address is sent as exactly four big-endian bytes followed by
    one byte that is their XOR, any other address is sent as the bytes it is;
    then one status byte is read.  Unless it is ACKNOWLEDGE (0x79) the call
    raises [ValueError('bad addr')] with that read as the last bus event: no
    argument frame and no payload read follow.  On ACKNOWLEDGE the exchange
    goes on from there and does not raise that error. *)
Theorem cmd_read_addr_spec (i2c : device) (cmd expect_len : Z) (a : pyarg)
    (arg2 : option pyarg) (no_final : bool) (tr t1 : trace) :
  GPUAccess._send_cmd i2c cmd tr = (Ok tt, t1) ->
  match a with PyInt n => 0 <= n < 2 ^ 32 | PyBytes _ => True end ->
  exists frame : bytes,
    match a with
    | PyInt n =>
        exists b3 b2 b1 b0 chk,
          frame = [b3; b2; b1; b0; chk] /\
          n = int_of_byte b3 * 2 ^ 24 + int_of_byte b2 * 2 ^ 16 +
              int_of_byte b1 * 2 ^ 8 + int_of_byte b0 /\
          int_of_byte chk = xor_all [b3; b2; b1; b0]
    | PyBytes b => frame = b
    end /\
    let t2 := t1 ++ [EvWrite 0x64 frame] in
    let t3 := t1 ++ [EvWrite 0x64 frame; EvRead 0x64 1] in
    (forall st,
       dev_write i2c t2 = true -> dev_read i2c t3 = Some st -> st <> [Byte.x79] ->
       GPUAccess.bl_cmd_read i2c cmd expect_len (Some a) arg2 no_final tr =
         (Raise (ValueError "bad addr"), t3)) /\
    (dev_write i2c t2 = true -> dev_read i2c t3 = Some [Byte.x79] ->
     exists r evs,
       GPUAccess.bl_cmd_read i2c cmd expect_len (Some a) arg2 no_final tr =
         (r, t3 ++ evs) /\
       r <> Raise (ValueError "bad addr")).
Proof.
  intros Hcmd Ha.
  assert (Hf : exists frame, addr_frame a = Ok frame /\
            match a with
            | PyInt n =>
                exists b3 b2 b1 b0 chk,
                  frame = [b3; b2; b1; b0; chk] /\
                  n = int_of_byte b3 * 2 ^ 24 + int_of_byte b2 * 2 ^ 16 +
                      int_of_byte b1 * 2 ^ 8 + int_of_byte b0 /\
                  int_of_byte chk = xor_all [b3; b2; b1; b0]
            | PyBytes b => frame = b
            end).
  { destruct a as [n|b].
    - destruct (addr_frame_int n Ha) as (b3 & b2 & b1 & b0 & chk & E & V & C).
      exists [b3; b2; b1; b0; chk]. split; [exact E|].
      now exists b3, b2, b1, b0, chk.
    - exists b. split; reflexivity. }
  destruct Hf as (frame & Ef & Hshape).
  exists frame. split; [exact Hshape|]. cbv zeta.
  rewrite (cmd_read_after_cmd i2c cmd expect_len (Some a) arg2 no_final tr t1 Hcmd).
  assert (Hst : opt_stage i2c addr_frame "bad addr" (Some a) =
                frame_stage i2c (Ok frame) "bad addr")
    by (unfold opt_stage; now rewrite Ef).
  rewrite Hst. split.
  - intros st Hw Hr Hne. apply bind_raise.
    now apply frame_stage_refused with st.
  - intros Hw Hr.
    destruct (after_addr_extends i2c arg2 expect_len no_final
                (t1 ++ [EvWrite BL_ADDR frame; poll])) as (r & evs & E & Hne).
    exists r, evs. split; [|exact Hne].
    rewrite (bind_ok _ _ _ _ _ (frame_stage_acked i2c frame "bad addr" t1 Hw Hr)).
    exact E.
Qed.

Lemma cmd_read_addr_spec_witness :
  GPUAccess.bl_cmd_read (script_dev [Some BL_ACK; Some BL_NACK] None)
    0x11 16 (Some (PyInt 0x08000100)) (Some (PyInt 15)) true [] =
    (Raise (ValueError "bad addr"),
     [EvWrite 0x64 [Byte.x11; Byte.xee]; EvRead 0x64 1;
      EvWrite 0x64 [Byte.x08; Byte.x00; Byte.x01; Byte.x00; Byte.x09];
      EvRead 0x64 1]).
Proof.
  destruct (cmd_read_addr_spec (script_dev [Some BL_ACK; Some BL_NACK] None)
              0x11 16 (PyInt 0x08000100) (Some (PyInt 15)) true []
              [EvWrite 0x64 [Byte.x11; Byte.xee]; EvRead 0x64 1])
    as (frame & (b3 & b2 & b1 & b0 & chk & -> & V & C) & Hbad & _).
  - reflexivity.
  - simpl. lia.
  - pose proof (int_of_byte_range b3). pose proof (int_of_byte_range b2).
    pose proof (int_of_byte_range b1). pose proof (int_of_byte_range b0).
    assert (b3 = Byte.x08) by (apply int_of_byte_is with 8; [lia | reflexivity]).
    assert (b2 = Byte.x00) by (apply int_of_byte_is with 0; [lia | reflexivity]).
    assert (b1 = Byte.x01) by (apply int_of_byte_is with 1; [lia | reflexivity]).
    assert (b0 = Byte.x00) by (apply int_of_byte_is with 0; [lia | reflexivity]).
    subst b3 b2 b1 b0.
    assert (chk = Byte.x09) by (apply int_of_byte_is with 9; [exact C | reflexivity]).
    subst chk.
    apply (Hbad BL_NACK); [reflexivity | reflexivity | discriminate].
Defined.

(** ** [bl_double_ack] *)

(** C6: [bl_double_ack] sends the command and polls once.  When that first
    poll returns ACKNOWLEDGE (0x79) it polls a second time (at least one
    more status read) and returns the second result; on any other first
    result, NEGATIVE-ACKNOWLEDGE and BUSY included, it returns the first
    result as it is and touches the bus no more. *)
Theorem double_ack_spec (i2c : device) (cmd : Z) (tr t1 t2 : trace) (r1 : bytes) :
  GPUAccess._send_cmd i2c cmd tr = (Ok tt, t1) ->
  GPUAccess._wait_done i2c t1 = (Ok r1, t2) ->
  (r1 = [Byte.x79] ->
   GPUAccess.bl_double_ack i2c cmd tr = GPUAccess._wait_done i2c t2 /\
   exists r2 evs,
     GPUAccess.bl_double_ack i2c cmd tr = (r2, t2 ++ evs) /\
     (1 <= count_reads evs <= 100)%nat) /\
  (r1 <> [Byte.x79] -> GPUAccess.bl_double_ack i2c cmd tr = (Ok r1, t2)) /\
  (r1 = BL_NACK -> GPUAccess.bl_double_ack i2c cmd tr = (Ok BL_NACK, t2)) /\
  (r1 = BL_BUSY -> GPUAccess.bl_double_ack i2c cmd tr = (Ok BL_BUSY, t2)).
Proof.
  intros Hcmd Hw1.
  assert (Hrun : GPUAccess.bl_double_ack i2c cmd tr =
                 if bytes_eqb r1 BL_ACK then GPUAccess._wait_done i2c t2
                 else (Ok r1, t2)).
  { unfold GPUAccess.bl_double_ack.
    rewrite (bind_ok _ _ _ _ _ Hcmd), (bind_ok _ _ _ _ _ Hw1).
    destruct (bytes_eqb r1 BL_ACK); reflexivity. }
  assert (Hother : r1 <> BL_ACK -> GPUAccess.bl_double_ack i2c cmd tr = (Ok r1, t2)).
  { intros Hne. apply bytes_eqb_neq in Hne. now rewrite Hrun, Hne. }
  split; [|split; [exact Hother|split]].
  - intros ->. change [Byte.x79] with BL_ACK in Hrun.
    rewrite bytes_eqb_refl in Hrun. split; [exact Hrun|].
    destruct (wait_done_polling i2c t2) as (r2 & evs & E & _ & Hn).
    exists r2, evs. split; [now rewrite Hrun | exact Hn].
  - intros ->. now apply Hother.
  - intros ->. now apply Hother.
Qed.

Lemma double_ack_spec_witness :
  GPUAccess.bl_double_ack
    (script_dev [Some BL_ACK; Some BL_BUSY; Some BL_ACK; Some BL_NACK] None) 0x93 [] =
  GPUAccess._wait_done
    (script_dev [Some BL_ACK; Some BL_BUSY; Some BL_ACK; Some BL_NACK] None)
    [EvWrite 0x64 [Byte.x93; Byte.x6c]; EvRead 0x64 1;
     EvRead 0x64 1; EvSleep 20; EvRead 0x64 1].
Proof.
  refine (proj1 (proj1 (double_ack_spec _ 0x93 []
            [EvWrite 0x64 [Byte.x93; Byte.x6c]; EvRead 0x64 1]
            [EvWrite 0x64 [Byte.x93; Byte.x6c]; EvRead 0x64 1;
             EvRead 0x64 1; EvSleep 20; EvRead 0x64 1] BL_ACK _ _) eq_refl));
    vm_compute; reflexivity.
Defined.

(** ** Preconditions of [read_at] and [write_at] *)

Lemma assert_fails {A : Type} (k : unit -> M A) (t : trace) :
  (assert_ false ;; k tt)%py t = (Raise AssertionError, t).
Proof. reflexivity. Qed.

Lemma assert_passes {A : Type} (k : M A) (t : trace) :
  (assert_ true ;; k)%py t = k t.
Proof. reflexivity. Qed.

(** C5: [read_at] and [write_at] refuse every length above 256 with an
    [AssertionError] raised before any bus call: the trace is left as it
    was.  [write_at] refuses in the same way every data whose length is not
    a multiple of 4 and every address that is not a multiple of 4.  In
    particular [read_at] with length 300 raises with no bus call made. *)
Theorem preconditions_checked (i2c : device) (tr : trace) :
  (forall (a : pyarg) (ln : Z),
     256 < ln ->
     GPUAccess.read_at i2c a ln tr = (Raise AssertionError, tr)) /\
  (forall (addr : Z) (data : bytes),
     256 < Z.of_nat (List.length data) \/
     Z.of_nat (List.length data) mod 4 <> 0 \/
     addr mod 4 <> 0 ->
     GPUAccess.write_at i2c addr data tr = (Raise AssertionError, tr)) /\
  (forall a : pyarg,
     GPUAccess.read_at i2c a 300 tr = (Raise AssertionError, tr) /\
     count_bus_calls (snd (GPUAccess.read_at i2c a 300 [])) = 0%nat).
Proof.
  assert (Hread : forall a ln, 256 < ln ->
            GPUAccess.read_at i2c a ln tr = (Raise AssertionError, tr)).
  { intros a ln Hln. unfold GPUAccess.read_at.
    destruct (Z.leb_spec ln 256); [lia|]. reflexivity. }
  split; [exact Hread|]. split.
  - intros addr data H. unfold GPUAccess.write_at. cbv zeta.
    destruct (Z.leb_spec (Z.of_nat (List.length data)) 256); [|reflexivity].
    rewrite assert_passes.
    destruct (Z.eqb_spec (Z.of_nat (List.length data) mod 4) 0); [|reflexivity].
    rewrite assert_passes.
    destruct (Z.eqb_spec (addr mod 4) 0); [|reflexivity].
    lia.
  - intros a. split; [apply Hread; lia | reflexivity].
Qed.

Lemma preconditions_checked_witness :
  GPUAccess.read_at (const_dev (Some BL_ACK)) (PyInt 0x08000100) 300 [] =
    (Raise AssertionError, []) /\
  GPUAccess.write_at (const_dev (Some BL_ACK)) 0x08000102
    [Byte.x00; Byte.x00; Byte.x00; Byte.x00] [] = (Raise AssertionError, []) /\
  GPUAccess.write_at (const_dev (Some BL_ACK)) 0x08000100
    [Byte.x00; Byte.x00; Byte.x00] [] = (Raise AssertionError, []).
Proof.
  destruct (preconditions_checked (const_dev (Some BL_ACK)) []) as (Hr & Hw & _).
  split; [apply Hr; lia|].
  split; apply Hw.
  - right; right. vm_compute. discriminate.
  - right; left. vm_compute. discriminate.
Defined.

(** ** Erase and write *)

Section Operations.

Variable i2c : device.

Lemma writeto_ok (buf : bytes) (t : trace) :
  dev_write i2c (t ++ [EvWrite BL_ADDR buf]) = true ->
  writeto i2c BL_ADDR buf t = (Ok tt, t ++ [EvWrite BL_ADDR buf]).
Proof. intros H. unfold writeto. cbv zeta. now rewrite H. Qed.

(** A final [_wait_done() == BL_ACK]. *)
Lemma wait_done_eq_ack (t : trace) :
  (resp <- GPUAccess._wait_done i2c ;; ret (bytes_eqb resp BL_ACK))%py t =
    match GPUAccess._wait_done i2c t with
    | (Ok st, t') => (Ok (bytes_eqb st BL_ACK), t')
    | (Raise e, t') => (Raise e, t')
    end.
Proof.
  unfold bind. destruct (GPUAccess._wait_done i2c t) as [[st|e] t']; reflexivity.
Qed.

(** [bl_doit] once the command is acknowledged and the argument frame is
    on the bus: what remains is the polling. *)
Lemma bl_doit_acked (cmd : Z) (b nb : Byte.byte) (arg frame : bytes) (t : trace) :
  bytes_of_ints [cmd; Z.lxor 0xff cmd] = Ok [b; nb] ->
  add_xor_check arg = Ok frame ->
  dev_write i2c (t ++ [EvWrite BL_ADDR [b; nb]]) = true ->
  dev_read i2c (t ++ [EvWrite BL_ADDR [b; nb]; poll]) = Some BL_ACK ->
  dev_write i2c (t ++ [EvWrite BL_ADDR [b; nb]; poll; EvWrite BL_ADDR frame]) = true ->
  GPUAccess.bl_doit i2c cmd arg t =
    GPUAccess._wait_done i2c
      (t ++ [EvWrite BL_ADDR [b; nb]; poll; EvWrite BL_ADDR frame]).
Proof.
  intros Ec Ea Hw1 Hr1 Hw2. unfold GPUAccess.bl_doit.
  rewrite (bind_ok _ _ _ _ _ (send_cmd_acked i2c cmd b nb t Ec Hw1 Hr1)).
  rewrite Ea. unfold lift. unfold bind at 1.
  assert (Hw2' : dev_write i2c ((t ++ [EvWrite BL_ADDR [b; nb]; poll]) ++
                                [EvWrite BL_ADDR frame]) = true)
    by (rewrite <- app_assoc; exact Hw2).
  rewrite (bind_ok _ _ _ _ _ (writeto_ok frame _ Hw2')).
  now rewrite <- app_assoc.
Qed.

End Operations.

(** C8: [bulk_erase] is [bl_doit(0x45, b'\xff\xff')]: the command frame
    [{0x45, 0xBA}] and its acknowledgement, then the argument [0xFF 0xFF]
    with its XOR byte [0x00] as one frame, then [_wait_done]; the result is
    true exactly when the status that [_wait_done] returns is ACKNOWLEDGE
    (0x79). *)
Theorem bulk_erase_spec (i2c : device) (tr : trace) :
  let c := EvWrite 0x64 [Byte.x45; Byte.xba] in
  let a := EvWrite 0x64 [Byte.xff; Byte.xff; Byte.x00] in
  dev_write i2c (tr ++ [c]) = true ->
  dev_read i2c (tr ++ [c; EvRead 0x64 1]) = Some [Byte.x79] ->
  dev_write i2c (tr ++ [c; EvRead 0x64 1; a]) = true ->
  int_of_byte Byte.x00 = xor_all [Byte.xff; Byte.xff] /\
  GPUAccess.bl_doit i2c 0x45 [Byte.xff; Byte.xff] tr =
    GPUAccess._wait_done i2c (tr ++ [c; EvRead 0x64 1; a]) /\
  (forall st t',
     GPUAccess._wait_done i2c (tr ++ [c; EvRead 0x64 1; a]) = (Ok st, t') ->
     GPUAccess.bulk_erase i2c tr = (Ok (bytes_eqb st [Byte.x79]), t') /\
     (GPUAccess.bulk_erase i2c tr = (Ok true, t') <-> st = [Byte.x79])) /\
  (forall e t',
     GPUAccess._wait_done i2c (tr ++ [c; EvRead 0x64 1; a]) = (Raise e, t') ->
     GPUAccess.bulk_erase i2c tr = (Raise e, t')).
Proof.
  intros c a Hw1 Hr1 Hw2.
  assert (Hdoit : GPUAccess.bl_doit i2c 0x45 [Byte.xff; Byte.xff] tr =
                  GPUAccess._wait_done i2c (tr ++ [c; EvRead 0x64 1; a])).
  { apply (bl_doit_acked i2c 0x45 Byte.x45 Byte.xba); try assumption; reflexivity. }
  split; [reflexivity|]. split; [exact Hdoit|].
  assert (Hrun : forall r t',
            GPUAccess._wait_done i2c (tr ++ [c; EvRead 0x64 1; a]) = (r, t') ->
            GPUAccess.bulk_erase i2c tr =
              (result_map (fun st => bytes_eqb st BL_ACK) r, t')).
  { intros r t' E. unfold GPUAccess.bulk_erase, bind.
    rewrite Hdoit, E. destruct r; reflexivity. }
  split.
  - intros st t' E. rewrite (Hrun _ _ E). simpl. split; [reflexivity|].
    split.
    + intros H. injection H as H. now apply bytes_eqb_eq.
    + intros ->. reflexivity.
  - intros e t' E. now rewrite (Hrun _ _ E).
Qed.

Lemma bulk_erase_spec_witness :
  GPUAccess.bulk_erase (script_dev [Some BL_ACK; Some BL_BUSY; Some BL_ACK] None) [] =
    (Ok true,
     [EvWrite 0x64 [Byte.x45; Byte.xba]; EvRead 0x64 1;
      EvWrite 0x64 [Byte.xff; Byte.xff; Byte.x00];
      EvRead 0x64 1; EvSleep 20; EvRead 0x64 1]).
Proof.
  destruct (bulk_erase_spec (script_dev [Some BL_ACK; Some BL_BUSY; Some BL_ACK] None) [])
    as (_ & _ & Hok & _); [reflexivity | reflexivity | reflexivity |].
  refine (proj1 (Hok BL_ACK _ _)). vm_compute. reflexivity.
Defined.

(** ** Command, address, and what follows *)

Section Exchange.

Variable i2c : device.

(** The whole decision tree of a [bl_cmd_read] with an address, down to the
    point where both frames are acknowledged. *)
Lemma cmd_read_tree (cmd expect_len : Z) (a : pyarg) (arg2 : option pyarg)
    (no_final : bool) (b nb : Byte.byte) (frame : bytes) (tr : trace) :
  bytes_of_ints [cmd; Z.lxor 0xff cmd] = Ok [b; nb] ->
  addr_frame a = Ok frame ->
  GPUAccess.bl_cmd_read i2c cmd expect_len (Some a) arg2 no_final tr =
    let c := EvWrite BL_ADDR [b; nb] in
    let w := EvWrite BL_ADDR frame in
    if dev_write i2c (tr ++ [c]) then
      match dev_read i2c (tr ++ [c; poll]) with
      | Some st =>
          if bytes_eqb st BL_ACK then
            if dev_write i2c (tr ++ [c; poll; w]) then
              match dev_read i2c (tr ++ [c; poll; w; poll]) with
              | Some st' =>
                  if bytes_eqb st' BL_ACK then
                    (opt_stage i2c arg2_frame "bad arg2" arg2 ;;
                     payload_stage i2c expect_len no_final)%py
                      (tr ++ [c; poll; w; poll])
                  else (Raise (ValueError "bad addr"), tr ++ [c; poll; w; poll])
              | None => (Raise OSError, tr ++ [c; poll; w; poll])
              end
            else (Raise OSError, tr ++ [c; poll; w])
          else (Raise (ValueError "unknown command"), tr ++ [c; poll])
      | None => (Raise OSError, tr ++ [c; poll])
      end
    else (Raise OSError, tr ++ [c]).
Proof.
  intros Ec Ea. cbv zeta.
  rewrite bl_cmd_read_stages.
  unfold bind at 1. rewrite (send_cmd_run i2c cmd b nb tr Ec).
  destruct (dev_write i2c (tr ++ [EvWrite BL_ADDR [b; nb]])); [|reflexivity].
  destruct (dev_read i2c (tr ++ [EvWrite BL_ADDR [b; nb]; poll])) as [st|];
    [|reflexivity].
  destruct (bytes_eqb st BL_ACK); [|reflexivity].
  unfold opt_stage at 1. rewrite Ea.
  unfold bind at 1. rewrite frame_stage_run.
  rewrite <- !app_assoc. simpl app.
  destruct (dev_write i2c _); [|reflexivity].
  destruct (dev_read i2c _) as [st'|]; [|reflexivity].
  destruct (bytes_eqb st' BL_ACK); reflexivity.
Qed.

(** The rest of [write_at] once its assertions hold and its argument frame
    is built. *)
Lemma write_at_unfold (addr : Z) (data : bytes) (lenb : Byte.byte)
    (arg : bytes) (tr : trace) :
  Z.of_nat (List.length data) <= 256 ->
  Z.of_nat (List.length data) mod 4 = 0 ->
  addr mod 4 = 0 ->
  bytes_of_ints [Z.of_nat (List.length data) - 1] = Ok [lenb] ->
  add_xor_check (lenb :: data) = Ok arg ->
  GPUAccess.write_at i2c addr data tr =
    (GPUAccess.bl_cmd_read i2c 0x32 0 (Some (PyInt addr)) None false ;;
     writeto i2c BL_ADDR arg ;;
     resp <- GPUAccess._wait_done i2c ;;
     ret (bytes_eqb resp BL_ACK))%py tr.
Proof.
  intros Hlen Hmod Haddr El Ea. unfold GPUAccess.write_at. cbv zeta.
  destruct (Z.leb_spec (Z.of_nat (List.length data)) 256); [|lia].
  rewrite assert_passes.
  destruct (Z.eqb_spec (Z.of_nat (List.length data) mod 4) 0); [|lia].
  rewrite assert_passes.
  destruct (Z.eqb_spec (addr mod 4) 0); [|lia].
  rewrite assert_passes.
  rewrite El. unfold result_bind. simpl app. rewrite Ea. reflexivity.
Qed.

End Exchange.

(** The length byte of a non-empty block of at most 256 bytes. *)
Lemma length_byte (data : bytes) :
  data <> [] -> Z.of_nat (List.length data) <= 256 ->
  exists lenb,
    bytes_of_ints [Z.of_nat (List.length data) - 1] = Ok [lenb] /\
    int_of_byte lenb = Z.of_nat (List.length data) - 1.
Proof.
  intros Hne Hlen.
  assert (Hr : 0 <= Z.of_nat (List.length data) - 1 < 256).
  { destruct data; [congruence|]. simpl List.length in *. lia. }
  destruct (byte_of_int_in_range _ Hr) as [lenb [E V]].
  exists lenb. split; [|exact V]. unfold bytes_of_ints. now rewrite E.
Qed.

(** ** [write_at] *)

(** C4: for a 4-aligned 32-bit address and non-empty data of at most 256
    bytes, a multiple of 4 long, [write_at] does exactly this: the command
    frame [{0x32, 0xCD}] and one status read; the address as four big-endian
    bytes and their XOR byte, and one status read; no payload read; then one
    frame made of the byte [len(data)-1], the data and the XOR of those
    [len(data)+1] bytes; then [_wait_done].  A status other than
    ACKNOWLEDGE after the command or after the address ends the call with
    [ValueError] there.  The result is true exactly when the status that
    [_wait_done] returns is ACKNOWLEDGE (0x79). *)
Theorem write_at_spec (i2c : device) (addr : Z) (data : bytes) (tr : trace) :
  0 <= addr < 2 ^ 32 ->
  addr mod 4 = 0 ->
  data <> [] ->
  Z.of_nat (List.length data) <= 256 ->
  Z.of_nat (List.length data) mod 4 = 0 ->
  exists a3 a2 a1 a0 achk lenb dchk : Byte.byte,
    addr = int_of_byte a3 * 2 ^ 24 + int_of_byte a2 * 2 ^ 16 +
           int_of_byte a1 * 2 ^ 8 + int_of_byte a0 /\
    int_of_byte achk = xor_all [a3; a2; a1; a0] /\
    int_of_byte lenb = Z.of_nat (List.length data) - 1 /\
    int_of_byte dchk = xor_all (lenb :: data) /\
    let c := EvWrite 0x64 [Byte.x32; Byte.xcd] in
    let r := EvRead 0x64 1 in
    let a := EvWrite 0x64 [a3; a2; a1; a0; achk] in
    let d := EvWrite 0x64 (lenb :: data ++ [dchk]) in
    (forall st,
       dev_write i2c (tr ++ [c]) = true ->
       dev_read i2c (tr ++ [c; r]) = Some st -> st <> [Byte.x79] ->
       GPUAccess.write_at i2c addr data tr =
         (Raise (ValueError "unknown command"), tr ++ [c; r])) /\
    (forall st,
       dev_write i2c (tr ++ [c]) = true ->
       dev_read i2c (tr ++ [c; r]) = Some [Byte.x79] ->
       dev_write i2c (tr ++ [c; r; a]) = true ->
       dev_read i2c (tr ++ [c; r; a; r]) = Some st -> st <> [Byte.x79] ->
       GPUAccess.write_at i2c addr data tr =
         (Raise (ValueError "bad addr"), tr ++ [c; r; a; r])) /\
    (dev_write i2c (tr ++ [c]) = true ->
     dev_read i2c (tr ++ [c; r]) = Some [Byte.x79] ->
     dev_write i2c (tr ++ [c; r; a]) = true ->
     dev_read i2c (tr ++ [c; r; a; r]) = Some [Byte.x79] ->
     dev_write i2c (tr ++ [c; r; a; r; d]) = true ->
     (forall st t',
        GPUAccess._wait_done i2c (tr ++ [c; r; a; r; d]) = (Ok st, t') ->
        GPUAccess.write_at i2c addr data tr = (Ok (bytes_eqb st [Byte.x79]), t') /\
        (GPUAccess.write_at i2c addr data tr = (Ok true, t') <-> st = [Byte.x79])) /\
     (forall e t',
        GPUAccess._wait_done i2c (tr ++ [c; r; a; r; d]) = (Raise e, t') ->
        GPUAccess.write_at i2c addr data tr = (Raise e, t'))).
Proof.
  intros Haddr Halign Hne Hlen Hmod.
  destruct (addr_frame_int addr Haddr) as (a3 & a2 & a1 & a0 & achk & Ea & Va & Ca).
  destruct (length_byte data Hne Hlen) as (lenb & El & Vl).
  destruct (add_xor_check_ok (lenb :: data)) as (dchk & Ed & Cd).
  exists a3, a2, a1, a0, achk, lenb, dchk.
  do 4 (split; [assumption|]).
  pose proof (write_at_unfold i2c addr data lenb _ tr Hlen Hmod Halign El Ed) as Hrun.
  pose proof (cmd_read_tree i2c 0x32 0 (PyInt addr) None false Byte.x32 Byte.xcd
                _ tr eq_refl Ea) as Htree.
  cbv zeta in Htree. unfold poll, BL_ADDR in Htree.
  unfold bind at 1 in Hrun. rewrite Htree in Hrun. clear Htree.
  cbv zeta. split; [|split].
  - intros st Hw1 Hr1 Hst. rewrite Hrun, Hw1, Hr1.
    apply bytes_eqb_neq in Hst. unfold BL_ACK. now rewrite Hst.
  - intros st Hw1 Hr1 Hw2 Hr2 Hst. rewrite Hrun, Hw1, Hr1, Hw2, Hr2.
    apply bytes_eqb_neq in Hst. unfold BL_ACK. simpl bytes_eqb at 1.
    now rewrite Hst.
  - intros Hw1 Hr1 Hw2 Hr2 Hw3.
    rewrite Hw1, Hr1, Hw2, Hr2 in Hrun.
    change (bytes_eqb [Byte.x79] BL_ACK) with true in Hrun. cbv iota in Hrun.
    change ((opt_stage i2c arg2_frame "bad arg2" None;;
             payload_stage i2c 0 false)%py
              (tr ++ [EvWrite 100 [Byte.x32; Byte.xcd]; EvRead 100 1;
                      EvWrite 100 [a3; a2; a1; a0; achk]; EvRead 100 1]))
      with (@Ok (option bytes) None,
            tr ++ [EvWrite 100 [Byte.x32; Byte.xcd]; EvRead 100 1;
                   EvWrite 100 [a3; a2; a1; a0; achk]; EvRead 100 1]) in Hrun.
    cbv iota beta in Hrun.
    assert (Hw3' : dev_write i2c
              ((tr ++ [EvWrite 100 [Byte.x32; Byte.xcd]; EvRead 100 1;
                       EvWrite 100 [a3; a2; a1; a0; achk]; EvRead 100 1]) ++
               [EvWrite BL_ADDR ((lenb :: data) ++ [dchk])]) = true)
      by (rewrite <- app_assoc; exact Hw3).
    rewrite (bind_ok _ _ _ _ _ (writeto_ok i2c _ _ Hw3')) in Hrun.
    rewrite wait_done_eq_ack, <- app_assoc in Hrun.
    change (GPUAccess.write_at i2c addr data tr =
            match GPUAccess._wait_done i2c
                    (tr ++ [EvWrite 100 [Byte.x32; Byte.xcd]; EvRead 100 1;
                            EvWrite 100 [a3; a2; a1; a0; achk]; EvRead 100 1;
                            EvWrite 100 (lenb :: data ++ [dchk])]) with
            | (Ok st, t') => (Ok (bytes_eqb st BL_ACK), t')
            | (Raise e, t') => (Raise e, t')
            end) in Hrun.
    split.
    + intros st t' E. rewrite Hrun, E. split; [reflexivity|]. split.
      * intros H. injection H as H. now apply bytes_eqb_eq.
      * intros ->. reflexivity.
    + intros e t' E. now rewrite Hrun, E.
Qed.

Lemma write_at_spec_witness :
  GPUAccess.write_at (const_dev (Some BL_ACK)) 0x08000100
    [Byte.x00; Byte.x00; Byte.x00; Byte.x00] [] =
    (Ok true,
     [EvWrite 0x64 [Byte.x32; Byte.xcd]; EvRead 0x64 1;
      EvWrite 0x64 [Byte.x08; Byte.x00; Byte.x01; Byte.x00; Byte.x09];
      EvRead 0x64 1;
      EvWrite 0x64 [Byte.x03; Byte.x00; Byte.x00; Byte.x00; Byte.x00; Byte.x03];
      EvRead 0x64 1]).
Proof.
  destruct (write_at_spec (const_dev (Some BL_ACK)) 0x08000100
              [Byte.x00; Byte.x00; Byte.x00; Byte.x00] [])
    as (a3 & a2 & a1 & a0 & achk & lenb & dchk & Va & Ca & Vl & Cd & _ & _ & Hok);
    [lia | reflexivity | discriminate | simpl; lia | reflexivity |].
  pose proof (int_of_byte_range a3). pose proof (int_of_byte_range a2).
  pose proof (int_of_byte_range a1). pose proof (int_of_byte_range a0).
  assert (a3 = Byte.x08) by (apply int_of_byte_is with 8; [lia | reflexivity]).
  assert (a2 = Byte.x00) by (apply int_of_byte_is with 0; [lia | reflexivity]).
  assert (a1 = Byte.x01) by (apply int_of_byte_is with 1; [lia | reflexivity]).
  assert (a0 = Byte.x00) by (apply int_of_byte_is with 0; [lia | reflexivity]).
  subst a3 a2 a1 a0.
  assert (achk = Byte.x09) by (apply int_of_byte_is with 9; [exact Ca | reflexivity]).
  assert (lenb = Byte.x03) by (apply int_of_byte_is with 3; [exact Vl | reflexivity]).
  subst achk lenb.
  assert (dchk = Byte.x03) by (apply int_of_byte_is with 3; [exact Cd | reflexivity]).
  subst dchk.
  destruct Hok as [Hok _];
    [reflexivity | reflexivity | reflexivity | reflexivity | reflexivity |].
  refine (proj1 (Hok BL_ACK _ _)). vm_compute. reflexivity.
Defined.

(** ** Length zero *)

(** C10: length 0 passes every stated length check ([0 <= 256],
    [0 % 4 == 0]) and yet [write_at] with empty data and [read_at] with
    length 0 always raise, because [len - 1 = -1] is not a byte.  [write_at]
    raises before any bus call.  [read_at] raises only after the command
    frame and the address frame were sent and acknowledged, with those four
    bus calls made and the exchange left there. *)
Theorem zero_length_raises (i2c : device) (tr : trace) :
  ((0 <=? 256) = true /\
   (Z.of_nat (List.length (@nil Byte.byte)) mod 4 =? 0) = true /\
   byte_of_int (0 - 1) = None) /\
  (forall addr : Z,
     (exists e, GPUAccess.write_at i2c addr [] tr = (Raise e, tr)) /\
     (addr mod 4 = 0 ->
      GPUAccess.write_at i2c addr [] tr =
        (Raise (ValueError "bytes value out of range"), tr))) /\
  (forall a : pyarg,
     exists e t', GPUAccess.read_at i2c a 0 tr = (Raise e, t')) /\
  (forall n : Z,
     0 <= n < 2 ^ 32 ->
     exists a3 a2 a1 a0 achk : Byte.byte,
       n = int_of_byte a3 * 2 ^ 24 + int_of_byte a2 * 2 ^ 16 +
           int_of_byte a1 * 2 ^ 8 + int_of_byte a0 /\
       int_of_byte achk = xor_all [a3; a2; a1; a0] /\
       let c := EvWrite 0x64 [Byte.x11; Byte.xee] in
       let r := EvRead 0x64 1 in
       let a := EvWrite 0x64 [a3; a2; a1; a0; achk] in
       (dev_write i2c (tr ++ [c]) = true ->
        dev_read i2c (tr ++ [c; r]) = Some [Byte.x79] ->
        dev_write i2c (tr ++ [c; r; a]) = true ->
        dev_read i2c (tr ++ [c; r; a; r]) = Some [Byte.x79] ->
        GPUAccess.read_at i2c (PyInt n) 0 tr =
          (Raise (ValueError "bytes value out of range"), tr ++ [c; r; a; r]))).
Proof.
  split; [repeat split|]. split; [|split].
  - intros addr.
    assert (Hrun : GPUAccess.write_at i2c addr [] tr =
              if addr mod 4 =? 0
              then (Raise (ValueError "bytes value out of range"), tr)
              else (Raise AssertionError, tr)).
    { unfold GPUAccess.write_at. cbv zeta.
      change (Z.of_nat (List.length (@nil Byte.byte))) with 0.
      change (0 <=? 256) with true. change (0 mod 4 =? 0) with true.
      rewrite !assert_passes.
      destruct (addr mod 4 =? 0); reflexivity. }
    split.
    + rewrite Hrun. destruct (addr mod 4 =? 0); eexists; reflexivity.
    + intros H. rewrite Hrun. apply Z.eqb_eq in H. now rewrite H.
  - intros a. unfold GPUAccess.read_at.
    change (0 <=? 256) with true. rewrite assert_passes.
    rewrite bl_cmd_read_stages.
    destruct (GPUAccess._send_cmd i2c 0x11 tr) as [[[]|e] t1] eqn:E.
    + rewrite (bind_ok _ _ _ _ _ E).
      destruct (frame_stage_extends i2c (addr_frame a) "bad addr" t1)
        as (r & evs & E2 & _).
      unfold opt_stage at 1. destruct r as [[]|e].
      * rewrite (bind_ok _ _ _ _ _ E2).
        exists (ValueError "bytes value out of range"), (t1 ++ evs).
        reflexivity.
      * rewrite (bind_raise _ _ _ _ _ E2). now exists e, (t1 ++ evs).
    + rewrite (bind_raise _ _ _ _ _ E). now exists e, t1.
  - intros n Hn.
    destruct (addr_frame_int n Hn) as (a3 & a2 & a1 & a0 & achk & Ea & Va & Ca).
    exists a3, a2, a1, a0, achk. do 2 (split; [assumption|]).
    cbv zeta. intros Hw1 Hr1 Hw2 Hr2.
    unfold GPUAccess.read_at.
    change (0 <=? 256) with true. rewrite assert_passes.
    rewrite (cmd_read_tree i2c 0x11 0 (PyInt n) (Some (PyInt (0 - 1))) true
               Byte.x11 Byte.xee _ tr eq_refl Ea).
    cbv zeta. unfold poll, BL_ADDR.
    rewrite Hw1, Hr1, Hw2, Hr2. reflexivity.
Qed.

Lemma zero_length_raises_witness :
  GPUAccess.read_at (const_dev (Some BL_ACK)) (PyInt 0x08000100) 0 [] =
    (Raise (ValueError "bytes value out of range"),
     [EvWrite 0x64 [Byte.x11; Byte.xee]; EvRead 0x64 1;
      EvWrite 0x64 [Byte.x08; Byte.x00; Byte.x01; Byte.x00; Byte.x09];
      EvRead 0x64 1]) /\
  GPUAccess.write_at (const_dev (Some BL_ACK)) 0x08000100 [] [] =
    (Raise (ValueError "bytes value out of range"), []).
Proof.
  destruct (zero_length_raises (const_dev (Some BL_ACK)) []) as (_ & Hw & _ & Hr).
  split; [|apply Hw; reflexivity].
  destruct (Hr 0x08000100) as (a3 & a2 & a1 & a0 & achk & Va & Ca & Hrun); [lia|].
  pose proof (int_of_byte_range a3). pose proof (int_of_byte_range a2).
  pose proof (int_of_byte_range a1). pose proof (int_of_byte_range a0).
  assert (a3 = Byte.x08) by (apply int_of_byte_is with 8; [lia | reflexivity]).
  assert (a2 = Byte.x00) by (apply int_of_byte_is with 0; [lia | reflexivity]).
  assert (a1 = Byte.x01) by (apply int_of_byte_is with 1; [lia | reflexivity]).
  assert (a0 = Byte.x00) by (apply int_of_byte_is with 0; [lia | reflexivity]).
  subst a3 a2 a1 a0.
  assert (achk = Byte.x09) by (apply int_of_byte_is with 9; [exact Ca | reflexivity]).
  subst achk.
  apply Hrun; reflexivity.
Defined.

(** * Further properties *)

(** ** What the XOR check sees and what it misses *)

Lemma lxor_cancel_r (a b c : Z) : Z.lxor a c = Z.lxor b c -> a = b.
Proof.
  intros H.
  assert (E : Z.lxor (Z.lxor a c) c = Z.lxor (Z.lxor b c) c) by now rewrite H.
  now rewrite !Z.lxor_assoc, !Z.lxor_nilpotent, !Z.lxor_0_r in E.
Qed.

Lemma lxor_cancel_l (a b c : Z) : Z.lxor c a = Z.lxor c b -> a = b.
Proof.
  rewrite (Z.lxor_comm c a), (Z.lxor_comm c b). apply lxor_cancel_r.
Qed.

Lemma xor_all_frame (s frame : bytes) :
  add_xor_check s = Ok frame -> xor_all frame = 0.
Proof.
  destruct (add_xor_check_ok s) as (chk & E & C). rewrite E.
  intros H; injection H as <-.
  rewrite xor_all_app. simpl. rewrite Z.lxor_0_r, C. apply Z.lxor_nilpotent.
Qed.

(** X1: changing any one byte of a checked frame, the check byte included,
    leaves a frame whose XOR is not zero. *)
Theorem xor_check_detects_one_byte (s frame pre post : bytes) (b b' : Byte.byte) :
  add_xor_check s = Ok frame ->
  frame = pre ++ b :: post ->
  b' <> b ->
  xor_all (pre ++ b' :: post) <> 0.
Proof.
  intros Hf -> Hne Hz.
  apply xor_all_frame in Hf.
  rewrite xor_all_app in Hf, Hz. simpl in Hf, Hz.
  rewrite <- Hz in Hf.
  apply lxor_cancel_l, lxor_cancel_r in Hf.
  apply Hne. symmetry. pose proof (byte_of_int_of_byte b) as Hb.
  rewrite Hf, byte_of_int_of_byte in Hb. congruence.
Qed.

Lemma xor_check_detects_one_byte_witness :
  (xor_all [Byte.xff; Byte.xfe; Byte.x00] =? 0) = false.
Proof.
  apply Z.eqb_neq.
  apply (xor_check_detects_one_byte [Byte.xff; Byte.xff]
           [Byte.xff; Byte.xff; Byte.x00] [Byte.xff] [Byte.x00] Byte.xff Byte.xfe);
    [reflexivity | reflexivity | discriminate].
Defined.

Lemma xor_all_perm (s s' : bytes) : Permutation s s' -> xor_all s = xor_all s'.
Proof.
  induction 1 as [|x l l' _ IH|x y l|l l' l'' _ IH1 _ IH2]; simpl.
  - reflexivity.
  - now rewrite IH.
  - rewrite <- !Z.lxor_assoc. f_equal. apply Z.lxor_comm.
  - congruence.
Qed.

(** X2: the check byte does not depend on the order of the bytes: a frame whose
    payload bytes were reordered in transit still carries a matching check. *)
Theorem xor_check_order_blind (s s' : bytes) :
  Permutation s s' ->
  exists chk,
    add_xor_check s = Ok (s ++ [chk]) /\
    add_xor_check s' = Ok (s' ++ [chk]) /\
    xor_all (s' ++ [chk]) = 0.
Proof.
  intros Hp.
  destruct (add_xor_check_ok s) as (chk & E & C).
  destruct (add_xor_check_ok s') as (chk' & E' & C').
  assert (chk' = chk).
  { apply int_of_byte_is with (xor_all s').
    - exact C'.
    - rewrite <- (xor_all_perm _ _ Hp), <- C. apply byte_of_int_of_byte. }
  subst chk'. exists chk. repeat split; try assumption.
  now apply xor_all_frame with s'.
Qed.

Lemma xor_check_order_blind_witness :
  exists chk,
    add_xor_check [Byte.x01; Byte.x02] = Ok ([Byte.x01; Byte.x02] ++ [chk]) /\
    add_xor_check [Byte.x02; Byte.x01] = Ok ([Byte.x02; Byte.x01] ++ [chk]) /\
    xor_all ([Byte.x02; Byte.x01] ++ [chk]) = 0.
Proof.
  apply (xor_check_order_blind [Byte.x01; Byte.x02] [Byte.x02; Byte.x01]).
  apply perm_swap.
Defined.

(** ** Command and address frames *)

Lemma complement_byte (b : Byte.byte) :
  Z.lxor 0xff (int_of_byte b) = 255 - int_of_byte b.
Proof. destruct b; reflexivity. Qed.

Lemma complement_int (c : Z) : 0 <= c < 256 -> Z.lxor 0xff c = 255 - c.
Proof.
  intros Hc. destruct (byte_of_int_in_range c Hc) as (b & _ & <-).
  apply complement_byte.
Qed.

(** X3: the two bytes of a command frame are complements of each other: they
    add up to 255, so they are never equal.  A command outside [0, 255] is
    refused when the frame is built, before anything is written to the bus. *)
Theorem send_cmd_frame_complement (i2c : device) (c : Z) (tr : trace) :
  (forall b nb,
     bytes_of_ints [c; Z.lxor 0xff c] = Ok [b; nb] ->
     int_of_byte b + int_of_byte nb = 255 /\ b <> nb) /\
  (c < 0 \/ 255 < c ->
   GPUAccess._send_cmd i2c c tr =
     (Raise (ValueError "bytes value out of range"), tr)).
Proof.
  split.
  - intros b nb E. unfold bytes_of_ints in E.
    destruct (byte_of_int c) as [b0|] eqn:Eb; [|discriminate E].
    destruct (byte_of_int (Z.lxor 0xff c)) as [nb0|] eqn:Enb; [|discriminate E].
    injection E as <- <-.
    apply byte_of_int_Some in Eb, Enb.
    pose proof (int_of_byte_range b0) as Hr.
    rewrite <- Eb, complement_byte in Enb.
    split; [lia|]. intros ->. lia.
  - intros Hc.
    assert (E : byte_of_int c = None) by (apply byte_of_int_None; lia).
    unfold GPUAccess._send_cmd, bind, lift, bytes_of_ints. now rewrite E.
Qed.

Lemma send_cmd_frame_complement_witness :
  GPUAccess._send_cmd (const_dev (Some BL_ACK)) 256 [] =
    (Raise (ValueError "bytes value out of range"), []).
Proof.
  apply (proj2 (send_cmd_frame_complement (const_dev (Some BL_ACK)) 256 [])).
  right. lia.
Defined.

(** X4: two different 32-bit addresses are never sent as the same address
    frame, and an address frame is always five bytes long. *)
Theorem addr_frame_injective (n m : Z) :
  0 <= n < 2 ^ 32 -> 0 <= m < 2 ^ 32 ->
  (exists frame, addr_frame (PyInt n) = Ok frame /\ List.length frame = 5%nat) /\
  (addr_frame (PyInt n) = addr_frame (PyInt m) -> n = m).
Proof.
  intros Hn Hm.
  destruct (addr_frame_int n Hn) as (a3 & a2 & a1 & a0 & ac & Ea & Va & _).
  destruct (addr_frame_int m Hm) as (b3 & b2 & b1 & b0 & bc & Eb & Vb & _).
  split.
  - exists [a3; a2; a1; a0; ac]. now split.
  - rewrite Ea, Eb. intros E. injection E as -> -> -> -> _. congruence.
Qed.

Lemma addr_frame_injective_witness :
  exists frame,
    addr_frame (PyInt 0x08000100) = Ok frame /\ List.length frame = 5%nat.
Proof.
  apply (proj1 (addr_frame_injective 0x08000100 0x08000104 ltac:(lia) ltac:(lia))).
Defined.

(** ** More on busy-polling *)

Section PollingMore.

Variable i2c : device.

Lemma polling_measures (n : nat) (t : trace) (evs : list event) :
  polling i2c n t evs ->
  count_writes evs = 0%nat /\ 0 <= total_sleep evs <= 50 * Z.of_nat n.
Proof.
  unfold count_writes.
  induction 1 as [t|n t st _ _|n t evs _ _ IH|n t evs _ _ IH];
    unfold poll; cbn [filter is_write List.length total_sleep]; lia.
Qed.

(** How a run of the loop can end: with its budget used up, on the value it
    started with or on BUSY; or on another status, delivered by its last
    event. *)
Lemma wait_loop_outcome (n : nat) :
  forall resp t r t',
    GPUAccess.wait_loop i2c n resp t = (Ok r, t') ->
    exists evs,
      t' = t ++ evs /\
      (((r = resp \/ r = Some BL_BUSY) /\ count_reads evs = n) \/
       (exists st evs0,
          r = Some st /\ st <> BL_BUSY /\ evs = evs0 ++ [poll] /\
          dev_read i2c (t ++ evs) = Some st)).
Proof.
  induction n as [|n IH]; intros resp t r t' H.
  - simpl in H. unfold ret in H. injection H as <- <-.
    exists []. rewrite app_nil_r. split; [reflexivity|]. left. now split; [left|].
  - destruct (dev_read i2c (t ++ [poll])) as [st|] eqn:E.
    + destruct (bytes_eqb st BL_BUSY) eqn:Eb.
      * apply bytes_eqb_eq in Eb; subst st.
        rewrite wait_loop_busy in H by exact E.
        apply IH in H. destruct H as (evs & -> & Hc).
        exists (poll :: EvSleep 20 :: evs). rewrite <- app_assoc.
        split; [reflexivity|].
        destruct Hc as [[Hr Hn]|(st & evs0 & -> & Hne & -> & Hd)].
        -- left. split; [right; destruct Hr; assumption|].
           unfold count_reads in *. simpl. now rewrite Hn.
        -- right. exists st, (poll :: EvSleep 20 :: evs0).
           repeat split; try assumption.
           rewrite <- app_assoc in Hd. exact Hd.
      * apply bytes_eqb_neq in Eb.
        rewrite (wait_loop_done i2c n resp t st E Eb) in H.
        injection H as <- <-. exists [poll]. split; [reflexivity|].
        right. exists st, []. repeat split; assumption.
    + rewrite wait_loop_absent in H by exact E.
      apply IH in H. destruct H as (evs & -> & Hc).
      exists (poll :: EvSleep 50 :: evs). rewrite <- app_assoc.
      split; [reflexivity|].
      destruct Hc as [[Hr Hn]|(st & evs0 & -> & Hne & -> & Hd)].
      * left. split; [exact Hr|].
        unfold count_reads in *. simpl. now rewrite Hn.
      * right. exists st, (poll :: EvSleep 50 :: evs0).
        repeat split; try assumption.
        rewrite <- app_assoc in Hd. exact Hd.
Qed.

(** Transient outcomes are ridden out, as long as the budget lasts. *)
Lemma wait_loop_recovers (outs : list (option bytes)) :
  forall n resp t st,
    (List.length outs < n)%nat ->
    Forall retried outs ->
    (forall k, (k < List.length outs)%nat ->
       dev_read i2c (t ++ retry_events (firstn k outs) ++ [poll]) =
         nth k outs None) ->
    dev_read i2c (t ++ retry_events outs ++ [poll]) = Some st ->
    st <> BL_BUSY ->
    GPUAccess.wait_loop i2c n resp t =
      (Ok (Some st), t ++ retry_events outs ++ [poll]).
Proof.
  induction outs as [|o outs IH]; intros n resp t st Hn Hall Hk Hst Hne.
  - destruct n as [|n]; [simpl in Hn; lia|].
    now apply wait_loop_done.
  - destruct n as [|n]; [simpl in Hn; lia|].
    simpl in Hn. inversion Hall as [|? ? Ho Hall']; subst.
    pose proof (Hk 0%nat ltac:(simpl; lia)) as H0. simpl in H0.
    assert (Hk' : forall t0, t0 = t ++ [poll; EvSleep (match o with None => 50 | Some _ => 20 end)] ->
              forall k, (k < List.length outs)%nat ->
              dev_read i2c (t0 ++ retry_events (firstn k outs) ++ [poll]) =
                nth k outs None).
    { intros t0 -> k Hlt. specialize (Hk (S k) ltac:(simpl; lia)).
      simpl in Hk. rewrite <- app_assoc. destruct o; exact Hk. }
    destruct Ho as [->| ->].
    + rewrite wait_loop_absent by exact H0.
      rewrite (IH n resp _ st); [| lia | exact Hall' | now apply Hk' | | exact Hne].
      * simpl. now rewrite <- app_assoc.
      * simpl in Hst. rewrite <- app_assoc. exact Hst.
    + rewrite wait_loop_busy by exact H0.
      rewrite (IH n (Some BL_BUSY) _ st); [| lia | exact Hall' | now apply Hk' | | exact Hne].
      * simpl. now rewrite <- app_assoc.
      * simpl in Hst. rewrite <- app_assoc. exact Hst.
Qed.

End PollingMore.

(** X5: [_wait_done] only reads and sleeps: it writes nothing to the bus, and
    however the device behaves it sleeps 5000 ms at most in all. *)
Theorem wait_done_quiet (i2c : device) (tr : trace) :
  exists r evs,
    GPUAccess._wait_done i2c tr = (r, tr ++ evs) /\
    count_writes evs = 0%nat /\
    0 <= total_sleep evs <= 5000.
Proof.
  destruct (wait_done_polling i2c tr) as (r & evs & E & Hp & _).
  exists r, evs. split; [exact E|].
  apply polling_measures in Hp. exact Hp.
Qed.

(** X6: a BUSY result of [_wait_done] means that all 100 attempts were made.  Any
    other result is the answer to the last bus event of the call: nothing is
    read and no sleep is taken after it. *)
Theorem wait_done_result_origin (i2c : device) (tr t' : trace) (st : bytes) :
  GPUAccess._wait_done i2c tr = (Ok st, t') ->
  exists evs,
    t' = tr ++ evs /\
    (st = BL_BUSY -> count_reads evs = 100%nat) /\
    (st <> BL_BUSY ->
     (exists evs0, evs = evs0 ++ [EvRead 0x64 1]) /\
     dev_read i2c t' = Some st).
Proof.
  intros H. rewrite wait_done_unfold in H.
  destruct (GPUAccess.wait_loop i2c 100 None tr) as [[r|e] t''] eqn:E;
    [|discriminate H].
  destruct r as [b|]; [|discriminate H].
  injection H as -> ->.
  apply wait_loop_outcome in E. destruct E as (evs & -> & Hc).
  exists evs. split; [reflexivity|].
  destruct Hc as [[Hr Hn]|(st' & evs0 & Hs & Hne & -> & Hd)].
  - destruct Hr as [Hr|Hr]; [discriminate Hr|]. injection Hr as ->.
    split; [intros _; exact Hn | intros Hne; now elim Hne].
  - injection Hs as ->. split; [intros Hb; now elim Hne|].
    intros _. split; [now exists evs0 | exact Hd].
Qed.

Lemma wait_done_result_origin_witness :
  count_reads (sleepy_polls 20 100) = 100%nat.
Proof.
  destruct (wait_done_result_origin (const_dev (Some BL_BUSY)) []
              (sleepy_polls 20 100) BL_BUSY) as (evs & E & Hb & _).
  - vm_compute. reflexivity.
  - simpl in E. subst evs. now apply Hb.
Defined.

(** X7: attempts that fail on the bus or are answered BUSY are ridden out: when
    fewer than 100 of them come first, in any mix, the first other status is
    what [_wait_done] returns, right after reading it. *)
Theorem wait_done_recovers (i2c : device) (tr : trace)
    (outs : list (option bytes)) (st : bytes) :
  (List.length outs < 100)%nat ->
  Forall retried outs ->
  (forall k, (k < List.length outs)%nat ->
     dev_read i2c (tr ++ retry_events (firstn k outs) ++ [EvRead 0x64 1]) =
       nth k outs None) ->
  dev_read i2c (tr ++ retry_events outs ++ [EvRead 0x64 1]) = Some st ->
  st <> BL_BUSY ->
  GPUAccess._wait_done i2c tr =
    (Ok st, tr ++ retry_events outs ++ [EvRead 0x64 1]).
Proof.
  intros Hn Hall Hk Hst Hne.
  rewrite wait_done_unfold.
  now rewrite (wait_loop_recovers i2c outs 100 None tr st Hn Hall Hk Hst Hne).
Qed.

Lemma wait_done_recovers_witness :
  GPUAccess._wait_done
    (script_dev [None; Some BL_BUSY; None; Some BL_ACK] None) [] =
    (Ok BL_ACK,
     [EvRead 0x64 1; EvSleep 50; EvRead 0x64 1; EvSleep 20;
      EvRead 0x64 1; EvSleep 50; EvRead 0x64 1]).
Proof.
  apply (wait_done_recovers (script_dev [None; Some BL_BUSY; None; Some BL_ACK] None)
           [] [None; Some BL_BUSY; None] BL_ACK).
  - simpl. lia.
  - apply Forall_cons; [left; reflexivity|].
    apply Forall_cons; [right; reflexivity|].
    apply Forall_cons; [left; reflexivity|].
    apply Forall_nil.
  - intros [|[|[|k]]] Hk; try reflexivity. simpl in Hk. lia.
  - reflexivity.
  - discriminate.
Defined.

(** ** Bus traffic and sleep of each operation *)

Lemma count_writes_app (a b : list event) :
  count_writes (a ++ b) = (count_writes a + count_writes b)%nat.
Proof. unfold count_writes. now rewrite filter_app, length_app. Qed.

Lemma count_reads_app (a b : list event) :
  count_reads (a ++ b) = (count_reads a + count_reads b)%nat.
Proof. unfold count_reads. now rewrite filter_app, length_app. Qed.

Lemma total_sleep_app (a b : list event) :
  total_sleep (a ++ b) = total_sleep a + total_sleep b.
Proof.
  induction a as [|e a IH]; [reflexivity|].
  destruct e; cbn [app total_sleep]; lia.
Qed.

Lemma uses_nil : uses 0 0 0 [].
Proof. unfold uses, count_writes, count_reads. simpl. lia. Qed.

Lemma uses_app (w1 r1 w2 r2 : nat) (s1 s2 : Z) (a b : list event) :
  uses w1 r1 s1 a -> uses w2 r2 s2 b ->
  uses (w1 + w2) (r1 + r2) (s1 + s2) (a ++ b).
Proof.
  unfold uses. rewrite count_writes_app, count_reads_app, total_sleep_app. lia.
Qed.

Lemma uses_weaken (w r w' r' : nat) (s s' : Z) (evs : list event) :
  uses w r s evs -> (w <= w')%nat -> (r <= r')%nat -> s <= s' ->
  uses w' r' s' evs.
Proof. unfold uses. lia. Qed.

Section Within.

Variable i2c : device.

Lemma within_weaken {A : Type} (m : M A) (w r w' r' : nat) (s s' : Z) :
  within m w r s -> (w <= w')%nat -> (r <= r')%nat -> s <= s' ->
  within m w' r' s'.
Proof.
  intros H Hw Hr Hs t. destruct (H t) as (res & evs & E & U).
  exists res, evs. split; [exact E|]. now apply uses_weaken with w r s.
Qed.

Lemma within_pure {A : Type} (res : result A) : within (lift res) 0 0 0.
Proof.
  intros t. exists res, []. rewrite app_nil_r. split; [reflexivity | apply uses_nil].
Qed.

Lemma within_ret {A : Type} (a : A) : within (ret a) 0 0 0.
Proof. apply (within_pure (Ok a)). Qed.

Lemma within_raise {A : Type} (e : exn) : within (@raise A e) 0 0 0.
Proof. apply (within_pure (Raise e)). Qed.

Lemma within_assert (c : bool) : within (assert_ c) 0 0 0.
Proof. destruct c; [apply within_ret | apply within_raise]. Qed.

Lemma within_writeto (addr : Z) (buf : bytes) : within (writeto i2c addr buf) 1 0 0.
Proof.
  intros t. unfold writeto. cbv zeta.
  destruct (dev_write i2c _); eexists; exists [EvWrite addr buf];
    (split; [reflexivity|]); unfold uses, count_writes, count_reads; simpl; lia.
Qed.

Lemma within_readfrom (addr nbytes : Z) : within (readfrom i2c addr nbytes) 0 1 0.
Proof.
  intros t. unfold readfrom. cbv zeta.
  destruct (dev_read i2c _); eexists; exists [EvRead addr nbytes];
    (split; [reflexivity|]); unfold uses, count_writes, count_reads; simpl; lia.
Qed.

Lemma within_bind {A B : Type} (m : M A) (k : A -> M B)
    (w1 r1 w2 r2 : nat) (s1 s2 : Z) :
  within m w1 r1 s1 -> (forall a, within (k a) w2 r2 s2) -> 0 <= s2 ->
  within (bind m k) (w1 + w2) (r1 + r2) (s1 + s2).
Proof.
  intros Hm Hk Hs t. destruct (Hm t) as (res & evs & E & U).
  destruct res as [a|e].
  - destruct (Hk a (t ++ evs)) as (res' & evs' & E' & U').
    exists res', (evs ++ evs'). split.
    + rewrite (bind_ok _ _ _ _ _ E), E'. now rewrite app_assoc.
    + now apply uses_app.
  - exists (Raise e), evs. split; [now apply bind_raise|].
    apply uses_weaken with w1 r1 s1; [exact U | lia | lia | lia].
Qed.

Lemma within_frame_stage (fr : result bytes) (msg : string) :
  within (frame_stage i2c fr msg) 1 1 0.
Proof.
  unfold frame_stage.
  apply (within_bind _ _ 0 0 1 1 0 0); [apply within_pure | | lia].
  intros qq.
  apply (within_bind _ _ 1 0 0 1 0 0); [apply within_writeto | | lia].
  intros _.
  apply (within_bind _ _ 0 1 0 0 0 0); [apply within_readfrom | | lia].
  intros resp. destruct (negb _); [apply within_raise | apply within_ret].
Qed.

Lemma within_send_cmd (cmd : Z) : within (GPUAccess._send_cmd i2c cmd) 1 1 0.
Proof.
  apply (within_frame_stage (bytes_of_ints [cmd; Z.lxor 0xff cmd]) "unknown command").
Qed.

Lemma within_opt_stage (frame : pyarg -> result bytes) (msg : string)
    (a : option pyarg) :
  within (opt_stage i2c frame msg a) (given a) (given a) 0.
Proof.
  destruct a as [x|]; [apply within_frame_stage | apply within_ret].
Qed.

Lemma within_payload_stage (expect_len : Z) (no_final : bool) :
  within (payload_stage i2c expect_len no_final) 0
    (payload_reads expect_len no_final) 0.
Proof.
  unfold payload_stage, payload_reads.
  destruct (expect_len =? 0); [apply within_ret|].
  destruct no_final; cbn [negb].
  - apply (within_bind _ _ 0 1 0 0 0 0); [apply within_readfrom | | lia].
    intros rv.
    apply (within_bind _ _ 0 0 0 0 0 0); [apply within_ret | | lia].
    intros _. apply within_ret.
  - apply (within_bind _ _ 0 1 0 1 0 0); [apply within_readfrom | | lia].
    intros rv.
    apply (within_bind _ _ 0 1 0 0 0 0); [| intros _; apply within_ret | lia].
    apply (within_bind _ _ 0 1 0 0 0 0); [apply within_readfrom | | lia].
    intros resp. destruct (negb _); [apply within_raise | apply within_ret].
Qed.

Lemma within_cmd_read (cmd expect_len : Z) (addr arg2 : option pyarg)
    (no_final : bool) :
  within (GPUAccess.bl_cmd_read i2c cmd expect_len addr arg2 no_final)
    (1 + (given addr + (given arg2 + 0)))
    (1 + (given addr + (given arg2 + payload_reads expect_len no_final)))
    (0 + (0 + (0 + 0))).
Proof.
  rewrite bl_cmd_read_stages.
  apply within_bind; [apply within_send_cmd | | lia]. intros _.
  apply within_bind; [apply within_opt_stage | | lia]. intros _.
  apply within_bind; [apply within_opt_stage | | lia]. intros _.
  apply within_payload_stage.
Qed.

Lemma within_wait_done : within (GPUAccess._wait_done i2c) 0 100 5000.
Proof.
  intros t. destruct (wait_done_polling i2c t) as (r & evs & E & Hp & Hn).
  exists r, evs. split; [exact E|].
  apply polling_measures in Hp. unfold uses. lia.
Qed.

Lemma within_doit (cmd : Z) (arg : bytes) :
  within (GPUAccess.bl_doit i2c cmd arg) 2 101 5000.
Proof.
  unfold GPUAccess.bl_doit.
  apply (within_bind _ _ 1 1 1 100 0 5000); [apply within_send_cmd | | lia].
  intros _.
  apply (within_bind _ _ 0 0 1 100 0 5000); [apply within_pure | | lia].
  intros frame.
  apply (within_bind _ _ 1 0 0 100 0 5000); [apply within_writeto | | lia].
  intros _. apply within_wait_done.
Qed.

Lemma within_double_ack (cmd : Z) :
  within (GPUAccess.bl_double_ack i2c cmd) 1 201 10000.
Proof.
  unfold GPUAccess.bl_double_ack.
  apply (within_bind _ _ 1 1 0 200 0 10000); [apply within_send_cmd | | lia].
  intros _.
  apply (within_bind _ _ 0 100 0 100 5000 5000); [apply within_wait_done | | lia].
  intros resp. destruct (bytes_eqb resp BL_ACK); [apply within_wait_done|].
  apply within_weaken with 0%nat 0%nat 0; [apply within_ret | lia | lia | lia].
Qed.

End Within.

(** X8: [bl_cmd_read] never sleeps.  It writes the command frame and one frame
    for each of [addr] and [arg2] that is given, at most; it reads at most
    one status byte per frame written, then nothing when [expect_len] is 0,
    the payload alone when [no_final] is set, and the payload and one final
    status otherwise. *)
Theorem cmd_read_bounded (i2c : device) (cmd expect_len : Z)
    (addr arg2 : option pyarg) (no_final : bool) (tr : trace) :
  exists res evs,
    GPUAccess.bl_cmd_read i2c cmd expect_len addr arg2 no_final tr =
      (res, tr ++ evs) /\
    (count_writes evs <= 1 + given addr + given arg2)%nat /\
    (count_reads evs <=
       1 + given addr + given arg2 + payload_reads expect_len no_final)%nat /\
    total_sleep evs = 0.
Proof.
  destruct (within_cmd_read i2c cmd expect_len addr arg2 no_final tr)
    as (res & evs & E & U).
  exists res, evs. split; [exact E|]. unfold uses in U. lia.
Qed.

(** X9: [bl_double_ack], and with it [readout_protect] and [readout_unprotect],
    writes at most one frame, reads at most 201 status bytes and sleeps at
    most 10 seconds, whatever the device does. *)
Theorem double_ack_bounded (i2c : device) (cmd : Z) (tr : trace) :
  (exists res evs,
     GPUAccess.bl_double_ack i2c cmd tr = (res, tr ++ evs) /\
     uses 1 201 10000 evs) /\
  (exists res evs,
     GPUAccess.readout_protect i2c tr = (res, tr ++ evs) /\
     uses 1 201 10000 evs) /\
  (exists res evs,
     GPUAccess.readout_unprotect i2c tr = (res, tr ++ evs) /\
     uses 1 201 10000 evs).
Proof.
  split; [|split].
  - apply within_double_ack.
  - apply (within_double_ack i2c 0x83).
  - apply (within_double_ack i2c 0x93).
Qed.

(** X10: [bulk_erase] writes at most two frames, reads at most 101 status bytes
    and sleeps at most 5 seconds; and the mass-erase argument [FF FF 00] is
    on the bus only if the erase command [0x45] was acknowledged. *)
Theorem bulk_erase_guarded (i2c : device) (tr : trace) :
  exists res evs,
    GPUAccess.bulk_erase i2c tr = (res, tr ++ evs) /\
    uses 2 101 5000 evs /\
    (In (EvWrite 0x64 [Byte.xff; Byte.xff; Byte.x00]) evs ->
     dev_read i2c (tr ++ [EvWrite 0x64 [Byte.x45; Byte.xba]; EvRead 0x64 1]) =
       Some [Byte.x79]).
Proof.
  assert (Hb : within (GPUAccess.bulk_erase i2c) 2 101 5000).
  { unfold GPUAccess.bulk_erase.
    apply (within_bind _ _ 2 101 0 0 5000 0); [apply within_doit | | lia].
    intros resp. apply within_ret. }
  destruct (Hb tr) as (res & evs & E & U).
  exists res, evs. split; [exact E|]. split; [exact U|].
  intros Hin.
  destruct (dev_read i2c (tr ++ [EvWrite 0x64 [Byte.x45; Byte.xba]; EvRead 0x64 1]))
    as [st|] eqn:Hr.
  - destruct (bytes_eqb st BL_ACK) eqn:Hst.
    + apply bytes_eqb_eq in Hst. now subst st.
    + exfalso. revert E.
      unfold GPUAccess.bulk_erase, GPUAccess.bl_doit. unfold bind at 1 2.
      rewrite (send_cmd_run i2c 0x45 Byte.x45 Byte.xba tr eq_refl).
      unfold poll, BL_ADDR. rewrite Hr, Hst.
      destruct (dev_write i2c _); intros E; injection E as _ E;
        apply app_inv_head in E; subst evs; simpl in Hin;
        intuition discriminate.
  - exfalso. revert E.
    unfold GPUAccess.bulk_erase, GPUAccess.bl_doit. unfold bind at 1 2.
    rewrite (send_cmd_run i2c 0x45 Byte.x45 Byte.xba tr eq_refl).
    unfold poll, BL_ADDR. rewrite Hr.
    destruct (dev_write i2c _); intros E; injection E as _ E;
      apply app_inv_head in E; subst evs; simpl in Hin;
      intuition discriminate.
Qed.

(** X11: [write_at] writes at most three frames, reads at most 102 status bytes
    and sleeps at most 5 seconds, for any address and data and whatever the
    device does. *)
Theorem write_at_bounded (i2c : device) (addr : Z) (data : bytes) (tr : trace) :
  exists res evs,
    GPUAccess.write_at i2c addr data tr = (res, tr ++ evs) /\
    uses 3 102 5000 evs.
Proof.
  revert tr. change (within (GPUAccess.write_at i2c addr data) 3 102 5000).
  unfold GPUAccess.write_at. cbv zeta.
  apply (within_bind _ _ 0 0 3 102 0 5000); [apply within_assert | | lia].
  intros _.
  apply (within_bind _ _ 0 0 3 102 0 5000); [apply within_assert | | lia].
  intros _.
  apply (within_bind _ _ 0 0 3 102 0 5000); [apply within_assert | | lia].
  intros _.
  apply (within_bind _ _ 0 0 3 102 0 5000); [apply within_pure | | lia].
  intros arg.
  apply (within_bind _ _ 2 2 1 100 0 5000); [| | lia].
  { apply (within_cmd_read i2c 0x32 0 (Some (PyInt addr)) None false). }
  intros _.
  apply (within_bind _ _ 1 0 0 100 0 5000); [apply within_writeto | | lia].
  intros _.
  apply (within_bind _ _ 0 100 0 0 5000 0); [apply within_wait_done | | lia].
  intros resp. apply within_ret.
Qed.

(** ** A successful double acknowledgement *)

Lemma pair_frame (c : Z) :
  (exists b nb, bytes_of_ints [c; Z.lxor 0xff c] = Ok [b; nb]) \/
  (exists e, bytes_of_ints [c; Z.lxor 0xff c] = Raise e).
Proof.
  unfold bytes_of_ints.
  destruct (byte_of_int c) as [b|]; [|right; eexists; reflexivity].
  destruct (byte_of_int (Z.lxor 0xff c)) as [nb|]; [|right; eexists; reflexivity].
  left. now exists b, nb.
Qed.

(** A [_send_cmd] that returns has written its frame and read ACKNOWLEDGE. *)
Lemma send_cmd_ok_shape (i2c : device) (c : Z) (tr t1 : trace) :
  GPUAccess._send_cmd i2c c tr = (Ok tt, t1) ->
  exists b nb,
    bytes_of_ints [c; Z.lxor 0xff c] = Ok [b; nb] /\
    t1 = tr ++ [EvWrite BL_ADDR [b; nb]; poll] /\
    dev_write i2c (tr ++ [EvWrite BL_ADDR [b; nb]]) = true /\
    dev_read i2c t1 = Some BL_ACK.
Proof.
  intros H. destruct (pair_frame c) as [(b & nb & E)|(e & E)].
  - exists b, nb. split; [exact E|].
    rewrite (send_cmd_run i2c c b nb tr E) in H.
    destruct (dev_write i2c _); [|discriminate H].
    destruct (dev_read i2c _) as [st|] eqn:Hr; [|discriminate H].
    destruct (bytes_eqb st BL_ACK) eqn:Hst; [|discriminate H].
    injection H as <-. apply bytes_eqb_eq in Hst. subst st.
    repeat split. exact Hr.
  - unfold GPUAccess._send_cmd, bind, lift in H. rewrite E in H. discriminate H.
Qed.

(** X12: when [bl_double_ack] returns ACKNOWLEDGE, at least three status bytes
    were read: the acknowledgement of the command and at least one in each
    of two polls; and only the command frame was written. *)
Theorem double_ack_success_two_polls (i2c : device) (cmd : Z) (tr t' : trace) :
  GPUAccess.bl_double_ack i2c cmd tr = (Ok BL_ACK, t') ->
  exists evs,
    t' = tr ++ evs /\
    (3 <= count_reads evs)%nat /\
    count_writes evs = 1%nat.
Proof.
  intros H. unfold GPUAccess.bl_double_ack in H.
  destruct (GPUAccess._send_cmd i2c cmd tr) as [[[]|e] t1] eqn:E1.
  - rewrite (bind_ok _ _ _ _ _ E1) in H.
    apply send_cmd_ok_shape in E1. destruct E1 as (b & nb & _ & -> & _ & _).
    destruct (wait_done_polling i2c (tr ++ [EvWrite BL_ADDR [b; nb]; poll]))
      as (r & evs1 & E2 & Hp1 & Hn1).
    destruct r as [r1|e].
    + rewrite (bind_ok _ _ _ _ _ E2) in H.
      destruct (bytes_eqb r1 BL_ACK) eqn:Hr1.
      * destruct (wait_done_polling i2c
                    ((tr ++ [EvWrite BL_ADDR [b; nb]; poll]) ++ evs1))
          as (r2 & evs2 & E3 & Hp2 & Hn2).
        rewrite E3 in H. injection H as _ <-.
        exists ([EvWrite BL_ADDR [b; nb]; poll] ++ evs1 ++ evs2).
        split; [now rewrite <- !app_assoc|].
        apply polling_measures in Hp1, Hp2.
        rewrite !count_reads_app, !count_writes_app.
        unfold count_reads at 1, count_writes at 1. simpl. lia.
      * unfold ret in H. injection H as -> _.
        now rewrite bytes_eqb_refl in Hr1.
    + rewrite (bind_raise _ _ _ _ _ E2) in H. discriminate H.
  - rewrite (bind_raise _ _ _ _ _ E1) in H. discriminate H.
Qed.

Lemma double_ack_success_two_polls_witness :
  exists evs,
    [EvWrite 0x64 [Byte.x83; Byte.x7c]; EvRead 0x64 1; EvRead 0x64 1;
     EvRead 0x64 1] = [] ++ evs /\
    (3 <= count_reads evs)%nat /\
    count_writes evs = 1%nat.
Proof.
  apply (double_ack_success_two_polls (const_dev (Some BL_ACK)) 0x83 []).
  vm_compute. reflexivity.
Defined.

(** ** The payload of [bl_cmd_read] and [get_version] *)

Section Payload.

Variable i2c : device.

Lemma payload_stage_run (expect_len : Z) (no_final : bool) (t : trace) :
  expect_len <> 0 ->
  payload_stage i2c expect_len no_final t =
    match dev_read i2c (t ++ [EvRead BL_ADDR expect_len]) with
    | None => (Raise OSError, t ++ [EvRead BL_ADDR expect_len])
    | Some rv =>
        if no_final then (Ok (Some rv), t ++ [EvRead BL_ADDR expect_len])
        else
          match dev_read i2c (t ++ [EvRead BL_ADDR expect_len; poll]) with
          | None => (Raise OSError, t ++ [EvRead BL_ADDR expect_len; poll])
          | Some st =>
              (if bytes_eqb st BL_ACK then Ok (Some rv)
               else Raise (ValueErrorResp st),
               t ++ [EvRead BL_ADDR expect_len; poll])
          end
    end.
Proof.
  intros Hne. unfold payload_stage.
  destruct (Z.eqb_spec expect_len 0); [contradiction|].
  step. destruct (dev_read i2c (t ++ [EvRead BL_ADDR expect_len])) as [rv|];
    [|reflexivity].
  destruct no_final; [reflexivity|]. cbn [negb].
  rewrite snoc2. fold poll.
  destruct (dev_read i2c _) as [st|]; [|reflexivity].
  destruct (bytes_eqb st BL_ACK); reflexivity.
Qed.

(** With neither address nor argument, the payload follows the command. *)
Lemma cmd_read_plain (cmd expect_len : Z) (no_final : bool) (tr t1 : trace) :
  GPUAccess._send_cmd i2c cmd tr = (Ok tt, t1) ->
  GPUAccess.bl_cmd_read i2c cmd expect_len None None no_final tr =
    payload_stage i2c expect_len no_final t1.
Proof.
  intros H. now rewrite (cmd_read_after_cmd i2c cmd expect_len None None no_final tr t1 H).
Qed.

End Payload.

(** X13: after the frames of [bl_cmd_read] (here: the command alone), with
    [expect_len] not 0: one read of [expect_len] bytes fetches the payload,
    which is returned as delivered, whatever its length.  With [no_final]
    nothing else is read.  Without it one more status byte is read, and
    unless it is ACKNOWLEDGE the payload is dropped and [ValueError] is
    raised with that status as its argument. *)
Theorem cmd_read_payload_spec (i2c : device) (cmd expect_len : Z)
    (tr t1 : trace) (rv : bytes) :
  GPUAccess._send_cmd i2c cmd tr = (Ok tt, t1) ->
  expect_len <> 0 ->
  dev_read i2c (t1 ++ [EvRead 0x64 expect_len]) = Some rv ->
  GPUAccess.bl_cmd_read i2c cmd expect_len None None true tr =
    (Ok (Some rv), t1 ++ [EvRead 0x64 expect_len]) /\
  (forall st,
     dev_read i2c (t1 ++ [EvRead 0x64 expect_len; EvRead 0x64 1]) = Some st ->
     GPUAccess.bl_cmd_read i2c cmd expect_len None None false tr =
       (if bytes_eqb st BL_ACK then Ok (Some rv) else Raise (ValueErrorResp st),
        t1 ++ [EvRead 0x64 expect_len; EvRead 0x64 1])).
Proof.
  intros Hcmd Hne Hrv. split.
  - rewrite (cmd_read_plain i2c cmd expect_len true tr t1 Hcmd).
    rewrite payload_stage_run by exact Hne.
    unfold BL_ADDR. now rewrite Hrv.
  - intros st Hst.
    rewrite (cmd_read_plain i2c cmd expect_len false tr t1 Hcmd).
    rewrite payload_stage_run by exact Hne.
    unfold poll, BL_ADDR. now rewrite Hrv, Hst.
Qed.

Lemma cmd_read_payload_spec_witness :
  GPUAccess.bl_cmd_read
    (script_dev [Some BL_ACK; Some [Byte.x01; Byte.x02]; Some BL_NACK] None)
    0x01 2 None None false [] =
    (Raise (ValueErrorResp BL_NACK),
     [EvWrite 0x64 [Byte.x01; Byte.xfe]; EvRead 0x64 1; EvRead 0x64 2;
      EvRead 0x64 1]).
Proof.
  destruct (cmd_read_payload_spec
              (script_dev [Some BL_ACK; Some [Byte.x01; Byte.x02]; Some BL_NACK] None)
              0x01 2 [] [EvWrite 0x64 [Byte.x01; Byte.xfe]; EvRead 0x64 1]
              [Byte.x01; Byte.x02]) as [_ H];
    [reflexivity | discriminate | reflexivity |].
  apply (H BL_NACK). reflexivity.
Defined.

(** X14: [get_version] sends the frame [{0x00, 0xFF}]; once that is acknowledged
    it reads 20 bytes and one more status byte, and returns the 20-byte read
    as it came when that status is ACKNOWLEDGE.  Any other final status
    raises [ValueError] carrying it. *)
Theorem get_version_spec (i2c : device) (tr : trace) (blob st : bytes) :
  let c := EvWrite 0x64 [Byte.x00; Byte.xff] in
  dev_write i2c (tr ++ [c]) = true ->
  dev_read i2c (tr ++ [c; EvRead 0x64 1]) = Some [Byte.x79] ->
  dev_read i2c (tr ++ [c; EvRead 0x64 1; EvRead 0x64 20]) = Some blob ->
  dev_read i2c (tr ++ [c; EvRead 0x64 1; EvRead 0x64 20; EvRead 0x64 1]) = Some st ->
  (st = [Byte.x79] ->
   GPUAccess.get_version i2c tr =
     (Ok (Some blob), tr ++ [c; EvRead 0x64 1; EvRead 0x64 20; EvRead 0x64 1])) /\
  (st <> [Byte.x79] ->
   GPUAccess.get_version i2c tr =
     (Raise (ValueErrorResp st),
      tr ++ [c; EvRead 0x64 1; EvRead 0x64 20; EvRead 0x64 1])).
Proof.
  intros c Hw Hr Hblob Hst.
  assert (Hcmd : GPUAccess._send_cmd i2c 0x0 tr = (Ok tt, tr ++ [c; EvRead 0x64 1]))
    by (apply (send_cmd_acked i2c 0x0 Byte.x00 Byte.xff); [reflexivity | exact Hw | exact Hr]).
  assert (Hrun : GPUAccess.get_version i2c tr =
            (if bytes_eqb st BL_ACK then Ok (Some blob) else Raise (ValueErrorResp st),
             tr ++ [c; EvRead 0x64 1; EvRead 0x64 20; EvRead 0x64 1])).
  { unfold GPUAccess.get_version.
    rewrite (cmd_read_plain i2c 0x0 20 false tr _ Hcmd).
    rewrite payload_stage_run by discriminate.
    unfold poll, BL_ADDR. rewrite <- !app_assoc. simpl app.
    now rewrite Hblob, Hst. }
  split.
  - intros ->. exact Hrun.
  - intros Hne. apply bytes_eqb_neq in Hne. fold BL_ACK in Hne.
    now rewrite Hrun, Hne.
Qed.

Lemma get_version_spec_witness :
  GPUAccess.get_version
    (script_dev [Some BL_ACK; Some [Byte.x12; Byte.x34]; Some BL_ACK] None) [] =
    (Ok (Some [Byte.x12; Byte.x34]),
     [EvWrite 0x64 [Byte.x00; Byte.xff]; EvRead 0x64 1; EvRead 0x64 20;
      EvRead 0x64 1]).
Proof.
  destruct (get_version_spec
              (script_dev [Some BL_ACK; Some [Byte.x12; Byte.x34]; Some BL_ACK] None)
              [] [Byte.x12; Byte.x34] BL_ACK) as [H _];
    [reflexivity | reflexivity | reflexivity | reflexivity |].
  apply H. reflexivity.
Defined.

(** ** [read_at] *)

(** X15: for a 32-bit address and a length from 1 to 256, [read_at] sends the
    command frame [{0x11, 0xEE}], the address as four big-endian bytes and
    their XOR, and the length frame [{ln-1, 0xFF ^ (ln-1)}], reading one
    status byte after each.  When all three are acknowledged it reads [ln]
    bytes once and returns them as delivered, with no status read after
    them.  A length frame that is not acknowledged raises
    [ValueError('bad arg2')] and no payload is read. *)
Theorem read_at_spec (i2c : device) (n ln : Z) (tr : trace) :
  0 <= n < 2 ^ 32 ->
  1 <= ln <= 256 ->
  exists a3 a2 a1 a0 achk lb nlb : Byte.byte,
    n = int_of_byte a3 * 2 ^ 24 + int_of_byte a2 * 2 ^ 16 +
        int_of_byte a1 * 2 ^ 8 + int_of_byte a0 /\
    int_of_byte achk = xor_all [a3; a2; a1; a0] /\
    int_of_byte lb = ln - 1 /\
    int_of_byte lb + int_of_byte nlb = 255 /\
    let c := EvWrite 0x64 [Byte.x11; Byte.xee] in
    let r := EvRead 0x64 1 in
    let a := EvWrite 0x64 [a3; a2; a1; a0; achk] in
    let l := EvWrite 0x64 [lb; nlb] in
    let p := EvRead 0x64 ln in
    (dev_write i2c (tr ++ [c]) = true ->
     dev_read i2c (tr ++ [c; r]) = Some [Byte.x79] ->
     dev_write i2c (tr ++ [c; r; a]) = true ->
     dev_read i2c (tr ++ [c; r; a; r]) = Some [Byte.x79] ->
     dev_write i2c (tr ++ [c; r; a; r; l]) = true ->
     (forall st,
        dev_read i2c (tr ++ [c; r; a; r; l; r]) = Some st -> st <> [Byte.x79] ->
        GPUAccess.read_at i2c (PyInt n) ln tr =
          (Raise (ValueError "bad arg2"), tr ++ [c; r; a; r; l; r])) /\
     (forall payload,
        dev_read i2c (tr ++ [c; r; a; r; l; r]) = Some [Byte.x79] ->
        dev_read i2c (tr ++ [c; r; a; r; l; r; p]) = Some payload ->
        GPUAccess.read_at i2c (PyInt n) ln tr =
          (Ok (Some payload), tr ++ [c; r; a; r; l; r; p]))).
Proof.
  intros Hn Hln.
  destruct (addr_frame_int n Hn) as (a3 & a2 & a1 & a0 & achk & Ea & Va & Ca).
  destruct (cmd_frame_bytes (ln - 1) ltac:(lia)) as (lb & nlb & El & Vl & Vn).
  exists a3, a2, a1, a0, achk, lb, nlb.
  do 3 (split; [assumption|]).
  split; [rewrite Vn, Vl, complement_int by lia; lia|].
  cbv zeta. intros Hw1 Hr1 Hw2 Hr2 Hw3.
  assert (Hrun : GPUAccess.read_at i2c (PyInt n) ln tr =
            (frame_stage i2c (Ok [lb; nlb]) "bad arg2" ;;
             payload_stage i2c ln true)%py
              (tr ++ [EvWrite 100 [Byte.x11; Byte.xee]; EvRead 100 1;
                      EvWrite 100 [a3; a2; a1; a0; achk]; EvRead 100 1])).
  { unfold GPUAccess.read_at.
    destruct (Z.leb_spec ln 256); [|lia]. rewrite assert_passes.
    rewrite (cmd_read_tree i2c 0x11 ln (PyInt n) (Some (PyInt (ln - 1))) true
               Byte.x11 Byte.xee _ tr eq_refl Ea).
    cbv zeta. unfold poll, BL_ADDR. rewrite Hw1, Hr1, Hw2, Hr2.
    change (bytes_eqb [Byte.x79] BL_ACK) with true. cbv iota.
    unfold opt_stage, arg2_frame. now rewrite El. }
  assert (Hpay : forall t, payload_stage i2c ln true t =
            match dev_read i2c (t ++ [EvRead 100 ln]) with
            | Some rv => (Ok (Some rv), t ++ [EvRead 100 ln])
            | None => (Raise OSError, t ++ [EvRead 100 ln])
            end).
  { intros t. rewrite payload_stage_run by lia. unfold BL_ADDR.
    destruct (dev_read i2c _); reflexivity. }
  assert (Hw3' : dev_write i2c
            ((tr ++ [EvWrite 100 [Byte.x11; Byte.xee]; EvRead 100 1;
                     EvWrite 100 [a3; a2; a1; a0; achk]; EvRead 100 1]) ++
             [EvWrite BL_ADDR [lb; nlb]]) = true)
    by (rewrite <- app_assoc; exact Hw3).
  split.
  - intros st Hst Hne. rewrite Hrun. apply bind_raise.
    replace (tr ++ [EvWrite 100 [Byte.x11; Byte.xee]; EvRead 100 1;
                    EvWrite 100 [a3; a2; a1; a0; achk]; EvRead 100 1;
                    EvWrite 100 [lb; nlb]; EvRead 100 1])
      with ((tr ++ [EvWrite 100 [Byte.x11; Byte.xee]; EvRead 100 1;
                    EvWrite 100 [a3; a2; a1; a0; achk]; EvRead 100 1]) ++
            [EvWrite BL_ADDR [lb; nlb]; poll])
      by (now rewrite <- app_assoc).
    apply frame_stage_refused with st; [exact Hw3' | | exact Hne].
    rewrite <- app_assoc. exact Hst.
  - intros payload Hst Hp. rewrite Hrun.
    assert (Hst' : dev_read i2c
              ((tr ++ [EvWrite 100 [Byte.x11; Byte.xee]; EvRead 100 1;
                       EvWrite 100 [a3; a2; a1; a0; achk]; EvRead 100 1]) ++
               [EvWrite BL_ADDR [lb; nlb]; poll]) = Some BL_ACK)
      by (rewrite <- app_assoc; exact Hst).
    rewrite (bind_ok _ _ _ _ _ (frame_stage_acked i2c _ "bad arg2" _ Hw3' Hst')).
    rewrite Hpay, <- !app_assoc. simpl app. unfold poll, BL_ADDR.
    now rewrite Hp.
Qed.

Lemma read_at_spec_witness :
  GPUAccess.read_at
    (script_dev [Some BL_ACK; Some BL_ACK; Some BL_ACK;
                 Some [Byte.xde; Byte.xad]] None)
    (PyInt 0x08000100) 2 [] =
    (Ok (Some [Byte.xde; Byte.xad]),
     [EvWrite 0x64 [Byte.x11; Byte.xee]; EvRead 0x64 1;
      EvWrite 0x64 [Byte.x08; Byte.x00; Byte.x01; Byte.x00; Byte.x09];
      EvRead 0x64 1;
      EvWrite 0x64 [Byte.x01; Byte.xfe]; EvRead 0x64 1;
      EvRead 0x64 2]).
Proof.
  destruct (read_at_spec
              (script_dev [Some BL_ACK; Some BL_ACK; Some BL_ACK;
                           Some [Byte.xde; Byte.xad]] None)
              0x08000100 2 [])
    as (a3 & a2 & a1 & a0 & achk & lb & nlb & Va & Ca & Vl & Vn & Hrun);
    [lia | lia |].
  pose proof (int_of_byte_range a3). pose proof (int_of_byte_range a2).
  pose proof (int_of_byte_range a1). pose proof (int_of_byte_range a0).
  assert (a3 = Byte.x08) by (apply int_of_byte_is with 8; [lia | reflexivity]).
  assert (a2 = Byte.x00) by (apply int_of_byte_is with 0; [lia | reflexivity]).
  assert (a1 = Byte.x01) by (apply int_of_byte_is with 1; [lia | reflexivity]).
  assert (a0 = Byte.x00) by (apply int_of_byte_is with 0; [lia | reflexivity]).
  subst a3 a2 a1 a0.
  assert (achk = Byte.x09) by (apply int_of_byte_is with 9; [exact Ca | reflexivity]).
  assert (lb = Byte.x01) by (apply int_of_byte_is with 1; [exact Vl | reflexivity]).
  subst achk lb.
  assert (nlb = Byte.xfe)
    by (apply int_of_byte_is with 254; [change (int_of_byte Byte.x01) with 1 in Vn; lia | reflexivity]).
  subst nlb.
  destruct Hrun as [_ Hok];
    [reflexivity | reflexivity | reflexivity | reflexivity | reflexivity |].
  apply Hok; reflexivity.
Defined.



(** ** The second argument of [bl_cmd_read] *)

(** X17: in [bl_cmd_read] with a second argument and no address, once the
    command is acknowledged: an integer outside [0, 255] raises before
    anything more is written; a byte sequence is written followed by the XOR
    of its bytes, one status byte is read, and a status other than
    ACKNOWLEDGE raises [ValueError('bad arg2')] with no payload read; on
    ACKNOWLEDGE with [expect_len] 0 the call returns [None] there. *)
Theorem cmd_read_arg2_spec (i2c : device) (cmd expect_len : Z)
    (no_final : bool) (tr t1 : trace) :
  GPUAccess._send_cmd i2c cmd tr = (Ok tt, t1) ->
  (forall n,
     n < 0 \/ 255 < n ->
     GPUAccess.bl_cmd_read i2c cmd expect_len None (Some (PyInt n)) no_final tr =
       (Raise (ValueError "bytes value out of range"), t1)) /\
  (forall s : bytes,
     exists chk,
       int_of_byte chk = xor_all s /\
       let w := EvWrite 0x64 (s ++ [chk]) in
       (forall st,
          dev_write i2c (t1 ++ [w]) = true ->
          dev_read i2c (t1 ++ [w; EvRead 0x64 1]) = Some st ->
          st <> [Byte.x79] ->
          GPUAccess.bl_cmd_read i2c cmd expect_len None (Some (PyBytes s))
            no_final tr =
            (Raise (ValueError "bad arg2"), t1 ++ [w; EvRead 0x64 1])) /\
       (dev_write i2c (t1 ++ [w]) = true ->
        dev_read i2c (t1 ++ [w; EvRead 0x64 1]) = Some [Byte.x79] ->
        GPUAccess.bl_cmd_read i2c cmd 0 None (Some (PyBytes s)) no_final tr =
          (Ok None, t1 ++ [w; EvRead 0x64 1]))).
Proof.
  intros Hcmd.
  assert (Hrun : forall el a2,
            GPUAccess.bl_cmd_read i2c cmd el None (Some a2) no_final tr =
              (frame_stage i2c (arg2_frame a2) "bad arg2" ;;
               payload_stage i2c el no_final)%py t1).
  { intros el a2.
    now rewrite (cmd_read_after_cmd i2c cmd el None (Some a2) no_final tr t1 Hcmd). }
  split.
  - intros n Hn. rewrite Hrun.
    assert (En : byte_of_int n = None) by (apply byte_of_int_None; lia).
    unfold arg2_frame, bytes_of_ints. now rewrite En.
  - intros s. destruct (add_xor_check_ok s) as (chk & E & C).
    exists chk. split; [exact C|]. cbv zeta. split.
    + intros st Hw Hr Hne. rewrite Hrun. apply bind_raise.
      unfold arg2_frame. rewrite E.
      now apply frame_stage_refused with st.
    + intros Hw Hr. rewrite Hrun. unfold arg2_frame. rewrite E.
      now rewrite (bind_ok _ _ _ _ _ (frame_stage_acked i2c _ "bad arg2" t1 Hw Hr)).
Qed.

Lemma cmd_read_arg2_spec_witness :
  GPUAccess.bl_cmd_read (script_dev [Some BL_ACK; Some BL_NACK] None)
    0x44 0 None (Some (PyBytes [Byte.x00; Byte.x01])) false [] =
    (Raise (ValueError "bad arg2"),
     [EvWrite 0x64 [Byte.x44; Byte.xbb]; EvRead 0x64 1;
      EvWrite 0x64 [Byte.x00; Byte.x01; Byte.x01]; EvRead 0x64 1]).
Proof.
  destruct (cmd_read_arg2_spec (script_dev [Some BL_ACK; Some BL_NACK] None)
              0x44 0 false [] [EvWrite 0x64 [Byte.x44; Byte.xbb]; EvRead 0x64 1])
    as [_ H]; [reflexivity|].
  destruct (H [Byte.x00; Byte.x01]) as (chk & C & Hbad & _).
  assert (chk = Byte.x01) by (apply int_of_byte_is with 1; [exact C | reflexivity]).
  subst chk.
  apply (Hbad BL_NACK); [reflexivity | reflexivity | discriminate].
Defined.

(** ** [run_at] *)

(** X18: [run_at] sends the command frame [{0x21, 0xDE}] and the address frame
    and, when both are acknowledged, returns at once: four bus calls, no
    polling and no sleep.  It makes no demand on the alignment of the
    address, and whatever the device does it never goes beyond two writes
    and two reads. *)
Theorem run_at_spec (i2c : device) (addr : Z) (tr : trace) :
  0 <= addr < 2 ^ 32 ->
  exists a3 a2 a1 a0 achk : Byte.byte,
    addr = int_of_byte a3 * 2 ^ 24 + int_of_byte a2 * 2 ^ 16 +
           int_of_byte a1 * 2 ^ 8 + int_of_byte a0 /\
    int_of_byte achk = xor_all [a3; a2; a1; a0] /\
    let c := EvWrite 0x64 [Byte.x21; Byte.xde] in
    let r := EvRead 0x64 1 in
    let a := EvWrite 0x64 [a3; a2; a1; a0; achk] in
    (dev_write i2c (tr ++ [c]) = true ->
     dev_read i2c (tr ++ [c; r]) = Some [Byte.x79] ->
     dev_write i2c (tr ++ [c; r; a]) = true ->
     dev_read i2c (tr ++ [c; r; a; r]) = Some [Byte.x79] ->
     GPUAccess.run_at i2c addr tr = (Ok tt, tr ++ [c; r; a; r])) /\
    (exists res evs,
       GPUAccess.run_at i2c addr tr = (res, tr ++ evs) /\ uses 2 2 0 evs).
Proof.
  intros Haddr.
  destruct (addr_frame_int addr Haddr) as (a3 & a2 & a1 & a0 & achk & Ea & Va & Ca).
  exists a3, a2, a1, a0, achk. do 2 (split; [assumption|]).
  cbv zeta. split.
  - intros Hw1 Hr1 Hw2 Hr2. unfold GPUAccess.run_at. unfold bind at 1.
    rewrite (cmd_read_tree i2c 0x21 0 (PyInt addr) None false
               Byte.x21 Byte.xde _ tr eq_refl Ea).
    cbv zeta. unfold poll, BL_ADDR. rewrite Hw1, Hr1, Hw2, Hr2. reflexivity.
  - assert (H : within (GPUAccess.run_at i2c addr) 2 2 0).
    { unfold GPUAccess.run_at.
      apply (within_bind _ _ 2 2 0 0 0 0); [| intros _; apply within_ret | lia].
      apply (within_cmd_read i2c 0x21 0 (Some (PyInt addr)) None false). }
    apply H.
Qed.

Lemma run_at_spec_witness :
  GPUAccess.run_at (const_dev (Some BL_ACK)) 0x08000001 [] =
    (Ok tt,
     [EvWrite 0x64 [Byte.x21; Byte.xde]; EvRead 0x64 1;
      EvWrite 0x64 [Byte.x08; Byte.x00; Byte.x00; Byte.x01; Byte.x09];
      EvRead 0x64 1]).
Proof.
  destruct (run_at_spec (const_dev (Some BL_ACK)) 0x08000001 [])
    as (a3 & a2 & a1 & a0 & achk & Va & Ca & Hok & _); [lia|].
  pose proof (int_of_byte_range a3). pose proof (int_of_byte_range a2).
  pose proof (int_of_byte_range a1). pose proof (int_of_byte_range a0).
  assert (a3 = Byte.x08) by (apply int_of_byte_is with 8; [lia | reflexivity]).
  assert (a2 = Byte.x00) by (apply int_of_byte_is with 0; [lia | reflexivity]).
  assert (a1 = Byte.x00) by (apply int_of_byte_is with 0; [lia | reflexivity]).
  assert (a0 = Byte.x01) by (apply int_of_byte_is with 1; [lia | reflexivity]).
  subst a3 a2 a1 a0.
  assert (achk = Byte.x09) by (apply int_of_byte_is with 9; [exact Ca | reflexivity]).
  subst achk.
  apply Hok; reflexivity.
Defined.

(** ** An erase that does not finish *)

(** X19: after the erase command and its argument went out: when the device
    answers BUSY to all 100 polls, [bulk_erase] returns false, it does not
    raise; when instead all 100 polls fail on the bus, [bulk_erase] raises
    [NameError] from the unassigned local of [_wait_done]. *)
Theorem bulk_erase_timeout (i2c : device) (tr : trace) :
  let c := EvWrite 0x64 [Byte.x45; Byte.xba] in
  let a := EvWrite 0x64 [Byte.xff; Byte.xff; Byte.x00] in
  let t3 := tr ++ [c; EvRead 0x64 1; a] in
  dev_write i2c (tr ++ [c]) = true ->
  dev_read i2c (tr ++ [c; EvRead 0x64 1]) = Some [Byte.x79] ->
  dev_write i2c t3 = true ->
  ((forall k, (k < 100)%nat ->
      dev_read i2c (t3 ++ sleepy_polls 20 k ++ [EvRead 0x64 1]) = Some BL_BUSY) ->
   GPUAccess.bulk_erase i2c tr = (Ok false, t3 ++ sleepy_polls 20 100)) /\
  ((forall k, (k < 100)%nat ->
      dev_read i2c (t3 ++ sleepy_polls 50 k ++ [EvRead 0x64 1]) = None) ->
   GPUAccess.bulk_erase i2c tr = (Raise NameError, t3 ++ sleepy_polls 50 100)).
Proof.
  intros c a t3 Hw1 Hr1 Hw2.
  assert (Hdoit : GPUAccess.bl_doit i2c 0x45 [Byte.xff; Byte.xff] tr =
                  GPUAccess._wait_done i2c t3).
  { apply (bl_doit_acked i2c 0x45 Byte.x45 Byte.xba); try assumption; reflexivity. }
  split; intros H; unfold GPUAccess.bulk_erase; unfold bind at 1;
    rewrite Hdoit, wait_done_unfold.
  - now rewrite (wait_loop_all_busy i2c 100 None t3 H).
  - now rewrite (wait_loop_all_absent i2c 100 None t3 H).
Qed.

Lemma bulk_erase_timeout_witness :
  GPUAccess.bulk_erase (script_dev [Some BL_ACK] (Some BL_BUSY)) [] =
    (Ok false,
     [EvWrite 0x64 [Byte.x45; Byte.xba]; EvRead 0x64 1;
      EvWrite 0x64 [Byte.xff; Byte.xff; Byte.x00]] ++ sleepy_polls 20 100).
Proof.
  destruct (bulk_erase_timeout (script_dev [Some BL_ACK] (Some BL_BUSY)) [])
    as [H _]; [reflexivity | reflexivity | reflexivity |].
  apply H. intros k _.
  cbn [script_dev dev_read app]. unfold count_reads.
  cbn [filter is_read List.length Nat.pred].
  rewrite filter_app, length_app.
  fold (count_reads (sleepy_polls 20 k)). rewrite count_reads_sleepy_polls.
  cbn [filter is_read poll List.length].
  replace (k + 1)%nat with (S k) by lia. cbn [nth]. destruct k; reflexivity.
Defined.

(** ** Mode control *)

(** X20: whatever state the two lines are in, [enter_bl] and [reset] each release
    the reset line exactly once and leave it high with boot-select back as an
    input.  At the release in [enter_bl] boot-select is a push-pull output
    driven high; at the release in [reset] it is an input, not driven.
    Running [enter_bl] twice leaves the lines as running it once does. *)
Theorem mode_control_spec (p : lines) :
  (reset_level (ModeControl.enter_bl p) = true /\
   boot0_mode (ModeControl.enter_bl p) = PinIN /\
   released_with (ModeControl.enter_bl p) =
     released_with p ++ [(PinOUT_PP, true)]) /\
  (reset_level (ModeControl.reset p) = true /\
   boot0_mode (ModeControl.reset p) = PinIN /\
   boot0_level (ModeControl.reset p) = boot0_level p /\
   released_with (ModeControl.reset p) =
     released_with p ++ [(PinIN, boot0_level p)]) /\
  (reset_level (ModeControl.enter_bl (ModeControl.enter_bl p)) =
     reset_level (ModeControl.enter_bl p) /\
   boot0_mode (ModeControl.enter_bl (ModeControl.enter_bl p)) =
     boot0_mode (ModeControl.enter_bl p) /\
   boot0_level (ModeControl.enter_bl (ModeControl.enter_bl p)) =
     boot0_level (ModeControl.enter_bl p)) /\
  released_with (ModeControl.reset (ModeControl.enter_bl p)) =
    released_with p ++ [(PinOUT_PP, true); (PinIN, true)].
Proof.
  destruct p as [[|] bm bl rw]; unfold ModeControl.enter_bl, ModeControl.reset;
    cbn; rewrite <- app_assoc; repeat split.
Qed.
